(** * GitLab comment tracker: a model of [comment_tracker.py]

    The tracker polls GitLab for the discussions of open merge requests,
    keeps a ledger of the comments it has seen ([tracked_comments]) and
    posts Slack messages.  This file embeds [check_for_new_comments] and the
    helpers it calls, together with the part of Python's [datetime] module
    the code relies on, and proves properties of the ledger and of the
    messages posted. *)

From Stdlib Require Import ZArith Lia Ascii String.
From stdpp Require Import base tactics option list strings pretty gmap.

Local Open Scope string_scope.
Local Open Scope Z_scope.

(** ** Python's [datetime] as far as the tracker uses it

    The tracker parses timestamps with [datetime.fromisoformat], reads the
    clock with [datetime.now()], subtracts and compares [datetime] values
    and prints one with [isoformat].  The definitions follow the module's
    Python implementation ([_ymd2ord], [_parse_isoformat_date],
    [_parse_hh_mm_ss_ff], [_parse_isoformat_time], [__sub__], [_cmp]) as of
    Python 3.7 to 3.10; later versions parse more formats and agree on
    [YYYY-MM-DDTHH:MM:SS[.ffffff][+HH:MM]], the form GitLab's timestamps take
    once [Z] is replaced. *)

Module Datetime.

(** A [datetime] object: broken-down fields, and [tzinfo] as the UTC offset
    in microseconds ([None] for a naive object). *)
Record datetime := mk_datetime {
  year : Z; month : Z; day : Z;
  hour : Z; minute : Z; second : Z; microsecond : Z;
  tzinfo : option Z
}.

(** A [timedelta], as a number of microseconds. *)
Definition timedelta := Z.

Definition timedelta_hours (h : Z) : timedelta := h * 3600 * 1000000.

Definition is_leap (y : Z) : bool :=
  (y mod 4 =? 0) && (negb (y mod 100 =? 0) || (y mod 400 =? 0)).

Definition days_in_month (y m : Z) : Z :=
  if m =? 2 then (if is_leap y then 29 else 28)
  else if (m =? 4) || (m =? 6) || (m =? 9) || (m =? 11) then 30
  else 31.

Definition days_before_year (y : Z) : Z :=
  let y := y - 1 in y * 365 + y / 4 - y / 100 + y / 400.

Definition days_before_month (y m : Z) : Z :=
  let cumul :=
    match m with
    | 1 => 0 | 2 => 31 | 3 => 59 | 4 => 90 | 5 => 120 | 6 => 151
    | 7 => 181 | 8 => 212 | 9 => 243 | 10 => 273 | 11 => 304 | _ => 334
    end in
  cumul + (if (2 <? m) && is_leap y then 1 else 0).

(** [toordinal]: day number, 0001-01-01 being day 1. *)
Definition toordinal (d : datetime) : Z :=
  days_before_year (year d) + days_before_month (year d) (month d) + day d.

(** Microseconds from the start of day 0 to the wall-clock reading of [d]. *)
Definition wall_us (d : datetime) : Z :=
  (((toordinal d * 24 + hour d) * 60 + minute d) * 60 + second d) * 1000000
  + microsecond d.

(** [a - b]: the difference of the readings when both are naive, of the
    instants when both are aware; mixing the two raises [TypeError]
    ([None] here). *)
Definition sub (a b : datetime) : option timedelta :=
  match tzinfo a, tzinfo b with
  | None, None => Some (wall_us a - wall_us b)
  | Some oa, Some ob => Some (wall_us a - wall_us b + ob - oa)
  | _, _ => None
  end.

(** [a > b]; [None] is the [TypeError] of a naive/aware comparison. *)
Definition gt (a b : datetime) : option bool :=
  match sub a b with
  | Some delta => Some (0 <? delta)
  | None => None
  end.

(** *** [fromisoformat] *)

Definition digit (c : ascii) : option Z :=
  let n := Z.of_N (N_of_ascii c) in
  if (48 <=? n) && (n <=? 57) then Some (n - 48) else None.

(** [int(s)] for a string of decimal digits. *)
Fixpoint digits_from (acc : Z) (s : list ascii) : option Z :=
  match s with
  | [] => Some acc
  | c :: s' => match digit c with
               | Some n => digits_from (acc * 10 + n) s'
               | None => None
               end
  end.

Definition int (s : list ascii) : option Z :=
  match s with [] => None | _ => digits_from 0 s end.

Definition chr (c : ascii) : list ascii := [c].

(** [_parse_isoformat_date]: the first ten characters, [YYYY-MM-DD]. *)
Definition parse_isoformat_date (s : list ascii) : option (Z * Z * Z) :=
  if negb (length s =? 10)%nat then None
  else if negb (bool_decide (take 1 (drop 4 s) = chr "-")) then None
  else if negb (bool_decide (take 1 (drop 7 s) = chr "-")) then None
  else
    y ← int (take 4 s);
    m ← int (take 2 (drop 5 s));
    d ← int (take 2 (drop 8 s));
    Some (y, m, d).

(** [_parse_hh_mm_ss_ff]: [HH[:MM[:SS[.fff[fff]]]]]. *)
Definition parse_fraction (s : list ascii) : option Z :=
  match s with
  | [] => Some 0
  | c :: f =>
      if negb (bool_decide (c = "."%char)) then None
      else if (length f =? 3)%nat then n ← int f; Some (n * 1000)
      else if (length f =? 6)%nat then int f
      else None
  end.

Definition parse_hh_mm_ss_ff (s : list ascii) : option (Z * Z * Z * Z) :=
  h ← int (take 2 s);
  if (length (take 2 s) <? 2)%nat then None else
  match drop 2 s with
  | [] => Some (h, 0, 0, 0)
  | c1 :: s1 =>
      if negb (bool_decide (c1 = ":"%char)) then None
      else if (length (take 2 s1) <? 2)%nat then None else
      m ← int (take 2 s1);
      match drop 2 s1 with
      | [] => Some (h, m, 0, 0)
      | c2 :: s2 =>
          if negb (bool_decide (c2 = ":"%char)) then None
          else if (length (take 2 s2) <? 2)%nat then None else
          sec ← int (take 2 s2);
          us ← parse_fraction (drop 2 s2);
          Some (h, m, sec, us)
      end
  end.

(** Position of the sign that starts the offset: the first [-], or else the
    first [+]. *)
Fixpoint find (c : ascii) (s : list ascii) : option nat :=
  match s with
  | [] => None
  | x :: s' => if bool_decide (x = c) then Some 0%nat else S <$> find c s'
  end.

Definition tz_pos (s : list ascii) : option (nat * Z) :=
  match find "-"%char s with
  | Some i => Some (i, -1)
  | None => match find "+"%char s with
            | Some i => Some (i, 1)
            | None => None
            end
  end.

(** [_parse_isoformat_time]. *)
Definition parse_isoformat_time (s : list ascii)
  : option (Z * Z * Z * Z * option Z) :=
  if (length s <? 2)%nat then None else
  match tz_pos s with
  | None => t ← parse_hh_mm_ss_ff s; Some (t, None)
  | Some (i, sign) =>
      t ← parse_hh_mm_ss_ff (take i s);
      let tzstr := drop (S i) s in
      if negb ((length tzstr =? 5) || (length tzstr =? 8)
               || (length tzstr =? 15))%nat then None else
      '(h, m, sec, us) ← parse_hh_mm_ss_ff tzstr;
      let off := ((h * 60 + m) * 60 + sec) * 1000000 + us in
      if negb (off <? timedelta_hours 24) then None
      else Some (t, Some (sign * off))
  end.

Definition valid_fields (y mo d h mi s : Z) : bool :=
  (1 <=? y) && (y <=? 9999) && (1 <=? mo) && (mo <=? 12)
  && (1 <=? d) && (d <=? days_in_month y mo)
  && (h <=? 23) && (mi <=? 59) && (s <=? 59).

(** [datetime.fromisoformat]; [None] is [ValueError].  The date is the
    first ten characters, the eleventh is a separator, the rest is the
    time.  Fields are strings of decimal digits. *)
Definition fromisoformat (date_string : string) : option datetime :=
  let s := list_ascii_of_string date_string in
  '(y, mo, d) ← parse_isoformat_date (take 10 s);
  '(h, mi, sec, us, tz) ←
    match drop 11 s with
    | [] => Some (0, 0, 0, 0, None)
    | tstr => parse_isoformat_time tstr
    end;
  if valid_fields y mo d h mi sec
  then Some (mk_datetime y mo d h mi sec us tz)
  else None.

(** *** [isoformat] *)

Definition pad (width : nat) (n : Z) : string :=
  let s := pretty n in
  String.concat "" (replicate (width - String.length s) "0") +:+ s.

Definition isoformat_offset (off : Z) : string :=
  let a := Z.abs off / 1000000 in
  (if off <? 0 then "-" else "+")
  +:+ pad 2 (a / 3600) +:+ ":" +:+ pad 2 (a / 60 mod 60)
  +:+ (if a mod 60 =? 0 then "" else ":" +:+ pad 2 (a mod 60)).

Definition isoformat (d : datetime) : string :=
  pad 4 (year d) +:+ "-" +:+ pad 2 (month d) +:+ "-" +:+ pad 2 (day d)
  +:+ "T" +:+ pad 2 (hour d) +:+ ":" +:+ pad 2 (minute d)
  +:+ ":" +:+ pad 2 (second d)
  +:+ (if microsecond d =? 0 then "" else "." +:+ pad 6 (microsecond d))
  +:+ from_option isoformat_offset "" (tzinfo d).

End Datetime.

(** ** What GitLab returns *)

Record user := { username : string }.

(** A note of a discussion.  [system] is [note.get('system', False)]: an
    absent key reads as [false]. *)
Record note := {
  note_id : Z;
  system : bool;
  note_author : user;
  note_created_at : string;
  body : string
}.

Record discussion := { notes : list note }.

Inductive mr_state := opened | closed | locked | merged.

#[global] Instance mr_state_eq_dec : EqDecision mr_state.
Proof. solve_decision. Defined.

Record merge_request := {
  iid : Z;
  mr_author : user;
  title : string;
  state : mr_state
}.

Record project := { project_id : Z; path_with_namespace : string }.

(** What the server holds for one merge request: the request as listed, the
    answer of [get_merge_request_details] ([None] when the call fails; the
    [reviewers] key absent or empty is the empty list) and the answer of
    [get_discussions] (empty when the call fails). *)
Record mr_data := {
  mr : merge_request;
  details : option (list user);
  discussions : list discussion
}.

(** A project as returned by [get_projects], with its merge requests of
    every state. *)
Record project_data := {
  proj : project;
  merge_requests : list mr_data
}.

(** ** The ledger and the tracker's state *)

(** An entry of [tracked_comments].  [responder] is absent until a response
    is recorded. *)
Record comment_record := {
  rec_project_id : Z;
  rec_mr_iid : Z;
  rec_author : string;
  rec_created_at : string;
  rec_notified_at : string;
  responded : bool;
  followup_sent : bool;
  responder : option string
}.

(** The three message templates. *)
Inductive notice := NewComment | FollowUp | Response.

#[global] Instance notice_eq_dec : EqDecision notice.
Proof. solve_decision. Defined.

(** A call to Slack's [chat.postMessage]: the channel and the text posted,
    and for the proofs which template made the text and the ledger key of
    the comment it is about. *)
Record slack_post := {
  channel : string;
  text : string;
  kind : notice;
  about : string
}.

Record tracker := {
  tracked_comments : gmap string comment_record; (* self.tracked_comments *)
  db_file : gmap string comment_record;   (* what the ledger file holds *)
  slack : list slack_post;                (* messages posted, oldest first *)
  reviewers : gset string;  (* the local [reviewers] of the request at hand *)
  clock_reads : nat                       (* calls of datetime.now() so far *)
}.

Definition set_tracked_comments (f : gmap string comment_record → gmap string comment_record)
    (st : tracker) : tracker :=
  {| tracked_comments := f (tracked_comments st); db_file := db_file st;
     slack := slack st; reviewers := reviewers st;
     clock_reads := clock_reads st |}.

Definition set_db_file (m : gmap string comment_record) (st : tracker) : tracker :=
  {| tracked_comments := tracked_comments st; db_file := m;
     slack := slack st; reviewers := reviewers st;
     clock_reads := clock_reads st |}.

Definition set_slack (f : list slack_post → list slack_post) (st : tracker) : tracker :=
  {| tracked_comments := tracked_comments st; db_file := db_file st;
     slack := f (slack st); reviewers := reviewers st;
     clock_reads := clock_reads st |}.

Definition set_reviewers (f : gset string → gset string) (st : tracker) : tracker :=
  {| tracked_comments := tracked_comments st; db_file := db_file st;
     slack := slack st; reviewers := f (reviewers st);
     clock_reads := clock_reads st |}.

Definition set_clock_reads (n : nat) (st : tracker) : tracker :=
  {| tracked_comments := tracked_comments st; db_file := db_file st;
     slack := slack st; reviewers := reviewers st;
     clock_reads := n |}.

Definition set_responded (who : string) (r : comment_record) : comment_record :=
  {| rec_project_id := rec_project_id r; rec_mr_iid := rec_mr_iid r;
     rec_author := rec_author r; rec_created_at := rec_created_at r;
     rec_notified_at := rec_notified_at r;
     responded := true; followup_sent := followup_sent r;
     responder := Some who |}.

Definition set_followup_sent (r : comment_record) : comment_record :=
  {| rec_project_id := rec_project_id r; rec_mr_iid := rec_mr_iid r;
     rec_author := rec_author r; rec_created_at := rec_created_at r;
     rec_notified_at := rec_notified_at r;
     responded := responded r; followup_sent := true;
     responder := responder r |}.

(** ** Computations that change the tracker and may raise *)

Inductive exn := ValueError | TypeError.

(** A computation returns the tracker as it left it, and a value or the
    exception raised: what was written to the ledger before a [raise] stays
    written, as in Python. *)
Definition M (A : Type) : Type := tracker → tracker * (exn + A).

#[global] Instance M_ret : MRet M := λ A a st, (st, inr a).

#[global] Instance M_bind : MBind M := λ A B f m st,
  match m st with
  | (st', inr a) => f a st'
  | (st', inl e) => (st', inl e)
  end.

Definition raise {A} (e : exn) : M A := λ st, (st, inl e).

Definition get : M tracker := λ st, (st, inr st).

Definition modify (f : tracker → tracker) : M unit := λ st, (f st, inr ()).

(** [try: m except Exception: pass]. *)
Definition try_except (m : M unit) : M unit := λ st,
  match m st with
  | (st', inr _) => (st', inr ())
  | (st', inl _) => (st', inr ())
  end.

(** [for x in l: body x]. *)
Fixpoint for_each {A} (body : A → M unit) (l : list A) : M unit :=
  match l with
  | [] => mret ()
  | x :: l' => body x ;; for_each body l'
  end.

(** [s.replace('Z', '+00:00')]. *)
Fixpoint replace_Z (s : string) : string :=
  match s with
  | EmptyString => EmptyString
  | String c s' =>
      if bool_decide (c = "Z"%char) then "+00:00" +:+ replace_Z s'
      else String c (replace_Z s')
  end.

(** [datetime.fromisoformat(s.replace('Z', '+00:00'))]. *)
Definition parse_timestamp (s : string) : M Datetime.datetime :=
  match Datetime.fromisoformat (replace_Z s) with
  | Some d => mret d
  | None => raise ValueError
  end.

Definition datetime_sub (a b : Datetime.datetime) : M Datetime.timedelta :=
  match Datetime.sub a b with
  | Some delta => mret delta
  | None => raise TypeError
  end.

Definition datetime_gt (a b : Datetime.datetime) : M bool :=
  match Datetime.gt a b with
  | Some c => mret c
  | None => raise TypeError
  end.

(** ** The tracker *)

(** The configuration read by [__init__]. *)
Record config := {
  gitlab_url : string;
  tracked_users : list string;
  slack_user_map : gmap string string
}.

Definition nl : string := String "010"%char "".

Section Tracker.

Variable cfg : config.

(** The wall clock: [clock n] is what the [n]-th call of [datetime.now()]
    reads, as a naive [datetime]. *)
Variable clock : nat → Datetime.datetime.

Definition naive (d : Datetime.datetime) : Datetime.datetime :=
  Datetime.mk_datetime (Datetime.year d) (Datetime.month d) (Datetime.day d)
    (Datetime.hour d) (Datetime.minute d) (Datetime.second d)
    (Datetime.microsecond d) None.

Definition datetime_now : M Datetime.datetime := λ st,
  (set_clock_reads (S (clock_reads st)) st, inr (naive (clock (clock_reads st)))).

(** [save_tracked_comments] overwrites the file with the whole ledger (a
    failed write is caught and logged by the code; the write is taken to
    succeed here). *)
Definition save_tracked_comments : M unit :=
  modify (λ st, set_db_file (tracked_comments st) st).

(** The open merge requests of a project (the query [state=opened]). *)
Definition get_merge_requests (p : project_data) : list mr_data :=
  filter (λ d, state (mr d) = opened) (merge_requests p).

Definition should_track_user (name : string) : bool :=
  match tracked_users cfg with
  | [] => true
  | _ => bool_decide (name ∈ tracked_users cfg)
  end.

Definition get_slack_user_id (gitlab_username : string) : option string :=
  slack_user_map cfg !! gitlab_username.

(** Truth value of [slack_user]: present and not the empty string. *)
Definition truthy (o : option string) : bool :=
  match o with
  | Some s => negb (bool_decide (s = ""))
  | None => false
  end.

(** [send_slack_message]: nothing is sent without a user id; otherwise the
    post is attempted.  The boolean it returns tells whether Slack accepted
    the post; no caller looks at it, and a failed post is only logged. *)
Definition send_slack_message (user_id : option string) (message : string)
    (k : notice) (key : string) : M unit :=
  if negb (truthy user_id) then mret ()
  else modify (set_slack (λ l, (l ++ [ {| channel := default "" user_id;
                                          text := message;
                                          kind := k; about := key |} ])%list)).

Definition note_url (p : project) (m : merge_request) (n : note) : string :=
  gitlab_url cfg +:+ "/" +:+ path_with_namespace p +:+ "/-/merge_requests/"
  +:+ pretty (iid m) +:+ "#note_" +:+ pretty (note_id n).

Definition format_comment_notification (p : project) (m : merge_request)
    (comment : note) (is_followup : bool) : string :=
  let comment_url := note_url p m comment in
  if is_followup then
    "⏰ *Reminder:* A comment on your merge request still needs a response" +:+ nl
    +:+ "*Project:* " +:+ path_with_namespace p +:+ nl
    +:+ "*MR:* " +:+ title m +:+ nl
    +:+ "*Comment by:* " +:+ username (note_author comment) +:+ nl
    +:+ "*Posted:* " +:+ note_created_at comment +:+ nl
    +:+ "*URL:* " +:+ comment_url +:+ nl +:+ nl
    +:+ "```" +:+ body comment +:+ "```"
  else
    "💬 *New comment on a merge request*" +:+ nl
    +:+ "*Project:* " +:+ path_with_namespace p +:+ nl
    +:+ "*MR:* " +:+ title m +:+ nl
    +:+ "*Comment by:* " +:+ username (note_author comment) +:+ nl
    +:+ "*URL:* " +:+ comment_url +:+ nl +:+ nl
    +:+ "```" +:+ body comment +:+ "```".

Definition format_response_notification (p : project) (m : merge_request)
    (response_author : string) (response_note : note) : string :=
  "✅ *MR author responded to your comment*" +:+ nl
  +:+ "*Project:* " +:+ path_with_namespace p +:+ nl
  +:+ "*MR:* " +:+ title m +:+ nl
  +:+ "*Response by:* " +:+ response_author +:+ nl
  +:+ "*URL:* " +:+ note_url p m response_note.

(** [str(note['id'])], the ledger key of a note. *)
Definition note_key (n : note) : string := pretty (note_id n).

Definition new_record (p : project) (m : merge_request) (n : note)
    (current_time : string) : comment_record :=
  {| rec_project_id := project_id p;
     rec_mr_iid := iid m;
     rec_author := username (note_author n);
     rec_created_at := note_created_at n;
     rec_notified_at := current_time;
     responded := false;
     followup_sent := false;
     responder := None |}.

(** "Check if this is a new comment": the value of [is_new_comment]. *)
Definition track_new (p : project) (m : merge_request) (n : note)
    (current_time : string) : M bool :=
  st ← get;
  match tracked_comments st !! note_key n with
  | None =>
      modify (set_tracked_comments
                (insert (note_key n) (new_record p m n current_time)));;
      mret true
  | Some _ => mret false
  end.

(** "Check if comment needs a followup reminder": the value of
    [needs_followup]. *)
Definition check_followup (n : note) : M bool :=
  st ← get;
  match tracked_comments st !! note_key n with
  | Some r =>
      if negb (responded r) && negb (followup_sent r) then
        created_at ← parse_timestamp (rec_created_at r);
        now ← datetime_now;
        age ← datetime_sub now created_at;
        if Datetime.timedelta_hours 24 <? age then
          modify (set_tracked_comments
                    (insert (note_key n) (set_followup_sent r)));;
          mret true
        else mret false
      else mret false
  | None => mret false
  end.

(** One turn of the loop "Check if a response has been added for this
    comment". *)
Definition check_response (p : project) (m : merge_request) (n : note)
    (response_note : note) : M unit :=
  if system response_note then mret () else
  let response_author := username (note_author response_note) in
  let note_author := username (note_author n) in
  response_created_at ← parse_timestamp (note_created_at response_note);
  note_created_at ← parse_timestamp (note_created_at n);
  later ← (if bool_decide (response_author ≠ note_author)
           then datetime_gt response_created_at note_created_at
           else mret false);
  st ← get;
  match tracked_comments st !! note_key n with
  | Some r =>
      if later && negb (responded r) then
        modify (set_tracked_comments
                  (insert (note_key n) (set_responded response_author r)));;
        if bool_decide (response_author = username (mr_author m))
           && bool_decide (note_author ∈ reviewers st)
           && should_track_user note_author
        then
          let slack_user := get_slack_user_id note_author in
          if truthy slack_user then
            send_slack_message slack_user
              (format_response_notification p m response_author response_note)
              Response (note_key n)
          else mret ()
        else mret ()
      else mret ()
  | None => mret ()
  end.

(** "Send notifications for new comments or follow-ups". *)
Definition notify_mr_author (p : project) (m : merge_request) (n : note)
    (is_new_comment needs_followup : bool) : M unit :=
  if is_new_comment || needs_followup then
    if bool_decide (username (note_author n) ≠ username (mr_author m))
       && should_track_user (username (mr_author m))
    then
      let slack_user := get_slack_user_id (username (mr_author m)) in
      if truthy slack_user then
        send_slack_message slack_user
          (format_comment_notification p m n needs_followup)
          (if needs_followup then FollowUp else NewComment) (note_key n)
      else mret ()
    else mret ()
  else mret ().

(** The body of the loop over the notes of a discussion. *)
Definition check_note (p : project) (m : merge_request)
    (current_time : string) (d : discussion) (n : note) : M unit :=
  if system n then mret () else
  let note_author := username (note_author n) in
  (if bool_decide (note_author ≠ username (mr_author m))
   then modify (set_reviewers (λ s, s ∪ {[ note_author ]}))
   else mret ());;
  if negb (should_track_user note_author) then mret () else
  is_new_comment ← track_new p m n current_time;
  needs_followup ← check_followup n;
  for_each (check_response p m n) (notes d);;
  notify_mr_author p m n is_new_comment needs_followup.

(** "Process each discussion": the two loops over the discussions of a
    merge request and over the notes of each. *)
Definition check_discussions (p : project) (m : merge_request)
    (current_time : string) (ds : list discussion) : M unit :=
  for_each (λ d, for_each (check_note p m current_time d) (notes d)) ds.

(** The body of the loop over the merge requests of a project. *)
Definition check_merge_request (p : project) (current_time : string)
    (md : mr_data) : M unit :=
  match details md with
  | None => mret ()
  | Some declared =>
      modify (set_reviewers (λ _, list_to_set (username <$> declared)));;
      check_discussions p (mr md) current_time (discussions md);;
      save_tracked_comments
  end.

Definition check_for_new_comments (projects : list project_data) : M unit :=
  now ← datetime_now;
  let current_time := Datetime.isoformat now in
  for_each (λ p, for_each (check_merge_request (proj p) current_time)
                   (get_merge_requests p))
    projects.

(** [run], for as many turns of its loop as there are polls; each poll is
    what GitLab returns during that turn.  An exception ends the turn and
    the loop goes on. *)
Definition run (polls : list (list project_data)) : M unit :=
  for_each (λ projects, try_except (check_for_new_comments projects)) polls.

End Tracker.

(** [__init__]: the ledger is loaded from the file, nothing has been posted. *)
Definition init (file : gmap string comment_record) : tracker :=
  {| tracked_comments := file; db_file := file; slack := [];
     reviewers := ∅; clock_reads := 0 |}.

(** ** Notions used to state the properties *)

Section Notions.

Variable cfg : config.

(** [x] counts as a response to [n]: not a system note, by another author,
    with a timestamp that parses and is strictly later than that of [n]. *)
Definition is_response (n x : note) : bool :=
  negb (system x)
  && bool_decide (username (note_author x) ≠ username (note_author n))
  && match Datetime.fromisoformat (replace_Z (note_created_at x)),
           Datetime.fromisoformat (replace_Z (note_created_at n)) with
     | Some tx, Some tn => default false (Datetime.gt tx tn)
     | _, _ => false
     end.

(** The record is unanswered, has had no reminder, and [now - created_at]
    is defined and exceeds 24 hours. *)
Definition overdue (now : Datetime.datetime) (r : comment_record) : bool :=
  negb (responded r) && negb (followup_sent r)
  && match Datetime.fromisoformat (replace_Z (rec_created_at r)) with
     | Some created_at =>
         match Datetime.sub now created_at with
         | Some age => Datetime.timedelta_hours 24 <? age
         | None => false
         end
     | None => false
     end.

(** What is posted when [x] is recorded as the response to [n], the local
    [reviewers] being [rv]. *)
Definition response_posts (p : project) (m : merge_request) (n x : note)
    (rv : gset string) : list slack_post :=
  if bool_decide (username (note_author x) = username (mr_author m))
     && bool_decide (username (note_author n) ∈ rv)
     && should_track_user cfg (username (note_author n))
     && truthy (get_slack_user_id cfg (username (note_author n)))
  then [ {| channel := default "" (get_slack_user_id cfg (username (note_author n)));
            text := format_response_notification cfg p m
                      (username (note_author x)) x;
            kind := Response; about := note_key n |} ]
  else [].

(** What "Send notifications for new comments or follow-ups" posts. *)
Definition comment_posts (p : project) (m : merge_request) (n : note)
    (is_new_comment needs_followup : bool) : list slack_post :=
  if (is_new_comment || needs_followup)
     && bool_decide (username (note_author n) ≠ username (mr_author m))
     && should_track_user cfg (username (mr_author m))
     && truthy (get_slack_user_id cfg (username (mr_author m)))
  then [ {| channel := default "" (get_slack_user_id cfg (username (mr_author m)));
            text := format_comment_notification cfg p m n needs_followup;
            kind := if needs_followup then FollowUp else NewComment;
            about := note_key n |} ]
  else [].

(** The tracker after [x] is recorded as the response to [n], whose record
    was [r]. *)
Definition record_response (p : project) (m : merge_request) (n x : note)
    (r : comment_record) (st : tracker) : tracker :=
  set_slack (λ l, (l ++ response_posts p m n x (reviewers st))%list)
    (set_tracked_comments
       (insert (note_key n) (set_responded (username (note_author x)) r)) st).

End Notions.

(** Number of "author responded" messages about the comment [k]. *)
Definition responses_about (k : string) (l : list slack_post) : nat :=
  length (filter (λ post, kind post = Response ∧ about post = k) l).

(** The messages about the comment [k]. *)
Definition posts_about (k : string) (l : list slack_post) : list slack_post :=
  filter (λ post, about post = k) l.

Definition is_responded (tc : gmap string comment_record) (k : string) : Prop :=
  ∃ r, tc !! k = Some r ∧ responded r = true.

(** The fields written when a record is created. *)
Definition same_creation (r r' : comment_record) : Prop :=
  rec_project_id r' = rec_project_id r ∧ rec_mr_iid r' = rec_mr_iid r
  ∧ rec_author r' = rec_author r ∧ rec_created_at r' = rec_created_at r
  ∧ rec_notified_at r' = rec_notified_at r.

(** How a record may change: the creation fields stay, the two flags only
    go from false to true, and [responder] changes only when [responded]
    does. *)
Definition record_evolves (r r' : comment_record) : Prop :=
  same_creation r r'
  ∧ (responded r = true → responded r' = true)
  ∧ (followup_sent r = true → followup_sent r' = true)
  ∧ (responded r' = responded r → responder r' = responder r).

Definition db_ok (st : tracker) : Prop :=
  dom (db_file st) ⊆ dom (tracked_comments st).

(** How the tracker may change. *)
Definition evolves (st st' : tracker) : Prop :=
  (∀ k r, tracked_comments st !! k = Some r →
     ∃ r', tracked_comments st' !! k = Some r' ∧ record_evolves r r')
  ∧ (∃ new, slack st' = (slack st ++ new)%list
       ∧ ∀ k, (responses_about k new ≤ 1)%nat
              ∧ (responses_about k new = 1%nat →
                   ¬ is_responded (tracked_comments st) k
                   ∧ is_responded (tracked_comments st') k))
  ∧ (db_ok st → db_ok st' ∧ dom (db_file st) ⊆ dom (db_file st')).

(** Nothing about the comment [k] changes. *)
Definition untouched (k : string) (st st' : tracker) : Prop :=
  tracked_comments st' !! k = tracked_comments st !! k
  ∧ posts_about k (slack st') = posts_about k (slack st).

(** Records created on the way carry [current_time] as [notified_at]. *)
Definition created_at_time (current_time : string) (st st' : tracker) : Prop :=
  evolves st st'
  ∧ ∀ k r', tracked_comments st !! k = None →
            tracked_comments st' !! k = Some r' →
            rec_notified_at r' = current_time.

(** The two trackers differ at most in the local [reviewers]. *)
Definition same_but_reviewers (st1 st2 : tracker) : Prop :=
  tracked_comments st1 = tracked_comments st2 ∧ db_file st1 = db_file st2
  ∧ slack st1 = slack st2 ∧ clock_reads st1 = clock_reads st2.


(** The two trackers differ at most in the number of clock readings. *)
Definition same_but_clock (st st' : tracker) : Prop :=
  tracked_comments st' = tracked_comments st ∧ db_file st' = db_file st
  ∧ slack st' = slack st ∧ reviewers st' = reviewers st
  ∧ (clock_reads st ≤ clock_reads st')%nat.


(** What processing the note [n] of the discussion [d] does to the tracker:
    [st] before, [st'] after, [res] the outcome. *)
Definition note_effect (cfg : config) (clock : nat → Datetime.datetime)
    (p : project) (m : merge_request) (current_time : string)
    (d : discussion) (n : note)
    (st st' : tracker) (res : exn + unit) : Prop :=
  let author := username (note_author n) in
  let key := note_key n in
  reviewers st' =
    (if negb (system n) && bool_decide (author ≠ username (mr_author m))
     then reviewers st ∪ {[ author ]} else reviewers st)
  ∧ db_file st' = db_file st
  ∧ (clock_reads st ≤ clock_reads st')%nat
  ∧ (∀ k, k ≠ key → tracked_comments st' !! k = tracked_comments st !! k)
  ∧ if system n || negb (should_track_user cfg author)
    then tracked_comments st' = tracked_comments st ∧ slack st' = slack st
    else
      let r0 := default (new_record p m n current_time)
                  (tracked_comments st !! key) in
      let is_new := bool_decide (tracked_comments st !! key = None) in
      let needs := overdue (naive (clock (clock_reads st))) r0 in
      ∃ r' rposts cposts,
        tracked_comments st' !! key = Some r'
        ∧ slack st' = (slack st ++ rposts ++ cposts)%list
        ∧ same_creation r0 r'
        ∧ followup_sent r' = followup_sent r0 || needs
        ∧ ((responded r' = responded r0 ∧ responder r' = responder r0
            ∧ rposts = []
            ∧ (res = inr () → responded r0 = false →
               Forall (λ y, is_response n y = false) (notes d)))
           ∨ (responded r0 = false
              ∧ ∃ pre x post,
                  notes d = (pre ++ x :: post)%list
                  ∧ Forall (λ y, is_response n y = false) pre
                  ∧ is_response n x = true
                  ∧ responded r' = true
                  ∧ responder r' = Some (username (note_author x))
                  ∧ rposts = response_posts cfg p m n x (reviewers st')))
        ∧ cposts = match res with
                   | inr _ => comment_posts cfg p m n is_new needs
                   | inl _ => []
                   end.


(** A relation that the bookkeeping around the notes keeps: resetting the
    local [reviewers], reading the clock, writing the ledger file. *)
Class Housekeeping (R : relation tracker) : Prop := {
  keeps_reviewers : ∀ f st, R st (set_reviewers f st);
  keeps_clock : ∀ n st, R st (set_clock_reads n st);
  keeps_save : ∀ st, R st (set_db_file (tracked_comments st) st)
}.


(** ** A merge request used in the examples

    [author1] opened merge request 123 of [group/project-name]; [reviewer1]
    commented on it (note 456789) and [author1] answered an hour later (note
    456790).  The clock reads 2023-04-02 15:30:45 throughout, 25 hours after
    the comment. *)
Module Scenario.

Definition slack_ids : gmap string string :=
  {[ "author1" := "U1"; "reviewer1" := "U2" ]}.

(** No allowlist: every user is tracked. *)
Definition cfg_all : config :=
  {| gitlab_url := "https://gitlab.com"; tracked_users := [];
     slack_user_map := slack_ids |}.

(** Only [reviewer1] is tracked. *)
Definition cfg_reviewer : config :=
  {| gitlab_url := "https://gitlab.com"; tracked_users := ["reviewer1"];
     slack_user_map := slack_ids |}.

Definition clock (n : nat) : Datetime.datetime :=
  Datetime.mk_datetime 2023 4 2 15 30 45 0 None.

Definition now_text : string := "2023-04-02T15:30:45".

Definition project0 : project :=
  {| project_id := 12345; path_with_namespace := "group/project-name" |}.

Definition mr0 : merge_request :=
  {| iid := 123; mr_author := {| username := "author1" |};
     title := "Fix authentication bug"; state := opened |}.

Definition mk_note (i : Z) (sys : bool) (who when : string) : note :=
  {| note_id := i; system := sys; note_author := {| username := who |};
     note_created_at := when; body := "Please fix this." |}.

(** The comment, with the timestamp as GitLab writes it and without the
    [Z]. *)
Definition comment_utc : note :=
  mk_note 456789 false "reviewer1" "2023-04-01T14:30:45Z".
Definition comment : note :=
  mk_note 456789 false "reviewer1" "2023-04-01T14:30:45".
Definition answer : note :=
  mk_note 456790 false "author1" "2023-04-01T15:30:45".
Definition second_answer : note :=
  mk_note 456791 false "author1" "2023-04-01T16:30:45".
(** A comment of the author on the author's own merge request. *)
Definition own_comment : note :=
  mk_note 456792 false "author1" "2023-04-02T15:00:00".
(** A note of another thread, by a third user. *)
Definition other_comment : note :=
  mk_note 456793 false "reviewer2" "2023-04-02T15:00:00".
Definition broken_note : note :=
  mk_note 456795 false "author1" "yesterday".
(** Two notes 100 milliseconds apart, within the same second. *)
Definition early : note :=
  mk_note 456796 false "reviewer1" "2023-04-02T15:00:00.100".
Definition late : note :=
  mk_note 456797 false "author1" "2023-04-02T15:00:00.200".

Definition thread (ns : list note) : discussion := {| notes := ns |}.

(** One poll that returns the merge request with the given threads. *)
Definition poll_of (m : merge_request) (ds : list discussion)
    : list project_data :=
  [ {| proj := project0;
       merge_requests := [ {| mr := m; details := Some [];
                              discussions := ds |} ] |} ].

Definition poll (ns : list note) : list project_data :=
  poll_of mr0 [thread ns].

Definition closed_mr0 : merge_request :=
  {| iid := 123; mr_author := {| username := "author1" |};
     title := "Fix authentication bug"; state := merged |}.

(** The ledger once [comment] has been seen, at noon of the day before. *)
Definition seen : gmap string comment_record :=
  {[ "456789" := {| rec_project_id := 12345; rec_mr_iid := 123;
                    rec_author := "reviewer1";
                    rec_created_at := "2023-04-01T14:30:45";
                    rec_notified_at := "2023-04-01T14:35:00";
                    responded := false; followup_sent := false;
                    responder := None |} ]}.

(** What the examples look at in a tracker. *)
Definition record_of (k : string) (out : tracker * (exn + unit))
    : option comment_record :=
  tracked_comments out.1 !! k.

Definition kinds (out : tracker * (exn + unit)) : list (notice * string) :=
  (λ post, (kind post, channel post)) <$> slack out.1.

End Scenario.


(** The step from [st] to [st'] set the [followup_sent] flag of the comment
    [k]: no record with the flag set before, one after. *)
Definition followup_marked (k : string) (st st' : tracker) : Prop :=
  ¬ (∃ r, tracked_comments st !! k = Some r ∧ followup_sent r = true)
  ∧ ∃ r', tracked_comments st' !! k = Some r' ∧ followup_sent r' = true.


(** ** The reviewer set built beforehand *)

(** The reviewer set as the specification words it: the declared reviewers
    and every note author who is not the author of the merge request. *)
Definition all_reviewers (m : merge_request) (declared : list user)
    (ds : list discussion) : gset string :=
  list_to_set (username <$> declared)
  ∪ list_to_set
      (filter (λ a, a ≠ username (mr_author m))
         ((λ n, username (note_author n)) <$> concat (notes <$> ds))).

(** [check_merge_request] with the reviewer set built in full before any
    note is looked at, as the specification words it. *)
Definition check_merge_request_precomputed (cfg : config)
    (clock : nat → Datetime.datetime) (p : project) (current_time : string)
    (md : mr_data) : M unit :=
  match details md with
  | None => mret ()
  | Some declared =>
      modify (set_reviewers
                (λ _, all_reviewers (mr md) declared (discussions md)));;
      check_discussions cfg clock p (mr md) current_time (discussions md);;
      save_tracked_comments
  end.

(** The tracker with [rv] as the local [reviewers]. *)
Definition with_reviewers (rv : gset string) (st : tracker) : tracker :=
  set_reviewers (λ _, rv) st.

(** [m] does not change [reviewers], and does the same whatever it holds
    among the sets that satisfy [I]. *)
Definition blind {A} (I : gset string → Prop) (m : M A) : Prop :=
  ∀ st rv, I (reviewers st) → I rv →
    m (with_reviewers rv st) = (with_reviewers rv (m st).1, (m st).2).

(** [m] does the same, up to [reviewers], whatever [reviewers] holds. *)
Definition loose {A} (m : M A) : Prop :=
  ∀ st rv, ∃ rv', m (with_reviewers rv st) = (with_reviewers rv' (m st).1, (m st).2).


(** ** Notions used for the further properties *)

(** Number of messages of the kind [w] about the comment [k]. *)
Definition posts_of (w : notice) (k : string) (l : list slack_post) : nat :=
  length (filter (λ post, kind post = w ∧ about post = k) l).

(** What in the ledger shows that the occasion for the message [w] about
    [k] is past: the record exists, has had its reminder, or is responded. *)
Definition occasion_past (w : notice) (tc : gmap string comment_record)
    (k : string) : Prop :=
  match w with
  | NewComment => is_Some (tc !! k)
  | FollowUp => ∃ r, tc !! k = Some r ∧ followup_sent r = true
  | Response => is_responded tc k
  end.

(** The tracker evolves, and each message posted on the way is the only one
    of its kind about its comment and uses up its occasion. *)
Definition once_each (st st' : tracker) : Prop :=
  evolves st st'
  ∧ ∃ new, slack st' = (slack st ++ new)%list
      ∧ ∀ w k, (posts_of w k new ≤ 1)%nat
               ∧ (posts_of w k new = 1%nat →
                    ¬ occasion_past w (tracked_comments st) k
                    ∧ occasion_past w (tracked_comments st') k).

(** A record of [k] that is responded stays exactly as it is, and nothing
    is posted about [k]. *)
Definition final (k : string) (st st' : tracker) : Prop :=
  ∀ r, tracked_comments st !! k = Some r → responded r = true →
       tracked_comments st' !! k = Some r
       ∧ posts_about k (slack st') = posts_about k (slack st).

(** [c] is the Slack identity, not empty, that [slack_user_map] gives for a
    user who passes the user filter. *)
Definition tracked_recipient (cfg : config) (c : string) : Prop :=
  ∃ u, should_track_user cfg u = true
       ∧ slack_user_map cfg !! u = Some c ∧ c ≠ "".

(** Every message posted on the way satisfies [P]. *)
Definition posting (P : slack_post → Prop) (st st' : tracker) : Prop :=
  ∃ new, slack st' = (slack st ++ new)%list ∧ Forall P new.

(** The template a text was made from, read off its first words. *)
Definition kind_of_text (s : string) : option notice :=
  if String.prefix "⏰ *Reminder:*" s then Some FollowUp
  else if String.prefix "💬 *New comment" s then Some NewComment
  else if String.prefix "✅ *MR author responded" s then Some Response
  else None.

(** The ledger file is left as it is. *)
Definition same_file (st st' : tracker) : Prop := db_file st' = db_file st.

(** Every record of the file is an earlier state of the record the ledger
    holds under the same key. *)
Definition file_behind (st : tracker) : Prop :=
  ∀ k r, db_file st !! k = Some r →
         ∃ r', tracked_comments st !! k = Some r' ∧ record_evolves r r'.

(** The file stays behind the ledger when it was. *)
Definition keeps_file_behind (st st' : tracker) : Prop :=
  evolves st st' ∧ (file_behind st → file_behind st').


(** A timestamp that, once [Z] is replaced, parses to an offset-aware
    [datetime] or does not parse. *)
Definition aware_or_malformed (s : string) : Prop :=
  ∀ c, Datetime.fromisoformat (replace_Z s) = Some c →
       Datetime.tzinfo c ≠ None.

(** Every record is unanswered, without reminder, and created at such a
    timestamp. *)
Definition all_pending_aware (tc : gmap string comment_record) : Prop :=
  ∀ k r, tc !! k = Some r →
         responded r = false ∧ followup_sent r = false
         ∧ aware_or_malformed (rec_created_at r).

(** A ledger of that sort stays of that sort, and nothing is posted. *)
Definition stuck (st st' : tracker) : Prop :=
  all_pending_aware (tracked_comments st) →
  all_pending_aware (tracked_comments st') ∧ slack st' = slack st.

(** ** Listing the projects *)

(** An HTTP response: the status code and the decoded body. *)
Record response (A : Type) := { status_code : Z; json : A }.
Arguments status_code {A} _.
Arguments json {A} _.

(** A project as GitLab lists it; the tracker keeps the first two fields. *)
Record listed_project := {
  listed_id : Z;
  listed_path_with_namespace : string;
  listed_name : string
}.

Definition keep_project (lp : listed_project) : project :=
  {| project_id := listed_id lp;
     path_with_namespace := listed_path_with_namespace lp |}.

(** The [while True] loop of [get_projects], from the page [page] on with
    [projects] gathered so far: [pages i] is the answer to the request for
    page [i]; [None] when [fuel] requests were not enough to leave the
    loop. *)
Fixpoint get_projects_from (pages : nat → response (list listed_project))
    (fuel page : nat) (projects : list project) : option (list project) :=
  match fuel with
  | O => None
  | S fuel' =>
      let response := pages page in
      if negb (status_code response =? 200) then Some projects
      else
        match json response with
        | [] => Some projects
        | data =>
            get_projects_from pages fuel' (S page)
              (projects ++ (keep_project <$> data))
        end
  end.

(** [get_projects]: the configured [tracked_projects] when there are any,
    else the projects listed page by page. *)
Definition get_projects (tracked_projects : list project)
    (pages : nat → response (list listed_project)) (fuel : nat)
    : option (list project) :=
  match tracked_projects with
  | [] => get_projects_from pages fuel 1 []
  | _ => Some tracked_projects
  end.

(** The projects of the pages [first], ..., [first + count - 1]. *)
Definition projects_of_pages (pages : nat → response (list listed_project))
    (first count : nat) : list project :=
  concat ((λ i, keep_project <$> json (pages i)) <$> seq first count).

(** The page answers with projects. *)
Definition full_page (r : response (list listed_project)) : Prop :=
  status_code r = 200 ∧ json r ≠ [].


(** The record [r] under the key [k] describes a note the polls returned: a
    note that is not a system note, whose author passes the user filter, in
    a thread of an open merge request. *)
Definition describes_polled_note (cfg : config)
    (polls : list (list project_data)) (k : string) (r : comment_record)
    : Prop :=
  ∃ projects p md d n,
    projects ∈ polls ∧ p ∈ projects ∧ md ∈ merge_requests p
    ∧ state (mr md) = opened ∧ d ∈ discussions md ∧ n ∈ notes d
    ∧ system n = false
    ∧ should_track_user cfg (username (note_author n)) = true
    ∧ k = note_key n
    ∧ rec_project_id r = project_id (proj p)
    ∧ rec_mr_iid r = iid (mr md)
    ∧ rec_author r = username (note_author n)
    ∧ rec_created_at r = note_created_at n.

(** The tracker evolves, and every record created on the way satisfies [Q]
    with its key. *)
Definition creating (Q : string → comment_record → Prop)
    (st st' : tracker) : Prop :=
  evolves st st'
  ∧ ∀ k r', tracked_comments st !! k = None →
            tracked_comments st' !! k = Some r' → Q k r'.


(** * Properties *)

(** ** The [datetime] model on examples *)

Example fromisoformat_offset :
  Datetime.fromisoformat (replace_Z "2023-04-01T14:30:45Z")
  = Some (Datetime.mk_datetime 2023 4 1 14 30 45 0 (Some 0)).
Proof. vm_compute. reflexivity. Qed.

Example fromisoformat_fraction :
  Datetime.fromisoformat "2023-04-01T14:30:45.123"
  = Some (Datetime.mk_datetime 2023 4 1 14 30 45 123000 None).
Proof. vm_compute. reflexivity. Qed.

Example fromisoformat_negative_offset :
  Datetime.fromisoformat "2023-04-01T14:30:45-05:30"
  = Some (Datetime.mk_datetime 2023 4 1 14 30 45 0 (Some (-19800000000))).
Proof. vm_compute. reflexivity. Qed.

Example fromisoformat_Z_suffix : Datetime.fromisoformat "2023-04-01T14:30:45Z" = None.
Proof. vm_compute. reflexivity. Qed.

Example fromisoformat_bad_day : Datetime.fromisoformat "2023-02-30T14:30:45" = None.
Proof. vm_compute. reflexivity. Qed.

Example isoformat_microseconds :
  Datetime.isoformat (Datetime.mk_datetime 2023 4 1 4 3 5 123000 None)
  = "2023-04-01T04:03:05.123000".
Proof. vm_compute. reflexivity. Qed.

Example toordinal_2023_04_01 :
  Datetime.toordinal (Datetime.mk_datetime 2023 4 1 14 30 45 0 None) = 738611.
Proof. vm_compute. reflexivity. Qed.

Example sub_naive :
  Datetime.sub (Datetime.mk_datetime 2023 4 2 15 30 45 0 None)
    (Datetime.mk_datetime 2023 4 1 14 30 45 0 None)
  = Some (Datetime.timedelta_hours 25).
Proof. vm_compute. reflexivity. Qed.

Example sub_naive_aware :
  Datetime.sub (Datetime.mk_datetime 2023 4 2 15 30 45 0 None)
    (Datetime.mk_datetime 2023 4 1 14 30 45 0 (Some 0))
  = None.
Proof. reflexivity. Qed.

Example gt_across_offsets :
  Datetime.gt (Datetime.mk_datetime 2023 4 1 14 30 45 0 (Some 0))
    (Datetime.mk_datetime 2023 4 1 15 30 45 0 (Some (Datetime.timedelta_hours 2)))
  = Some true.
Proof. vm_compute. reflexivity. Qed.

(** ** Reasoning about computations *)

Lemma bind_run {A B} (m : M A) (f : A → M B) (st : tracker) :
  (m ≫= f) st =
    match m st with
    | (st', inr a) => f a st'
    | (st', inl e) => (st', inl e)
    end.
Proof. reflexivity. Qed.

Lemma for_each_cons {A} (body : A → M unit) (x : A) (l : list A) (st : tracker) :
  for_each body (x :: l) st =
    match body x st with
    | (st', inr _) => for_each body l st'
    | (st', inl e) => (st', inl e)
    end.
Proof. reflexivity. Qed.

(** A reflexive and transitive relation between the tracker before and after
    is kept by a loop when every turn keeps it. *)
Lemma for_each_keeps {A} (R : relation tracker) `{!PreOrder R}
    (body : A → M unit) (l : list A) :
  (∀ x st, x ∈ l → R st (body x st).1) →
  ∀ st, R st (for_each body l st).1.
Proof.
  induction l as [|x l IH]; intros Hbody st.
  - reflexivity.
  - rewrite for_each_cons.
    pose proof (Hbody x st ltac:(left)) as Hx.
    destruct (body x st) as [st1 [e|[]]]; simpl in *; [done|].
    etrans; [exact Hx|]. apply IH. intros y st2 Hy. apply Hbody. by right.
Qed.


(** ** The steps of [check_note] *)

Section Steps.

Context (cfg : config) (clock : nat → Datetime.datetime).

Lemma track_new_run p m n ct st :
  track_new p m n ct st =
    match tracked_comments st !! note_key n with
    | None => (set_tracked_comments
                 (insert (note_key n) (new_record p m n ct)) st, inr true)
    | Some _ => (st, inr false)
    end.
Proof.
  unfold track_new. rewrite bind_run. simpl.
  destruct (tracked_comments st !! note_key n); reflexivity.
Qed.

Lemma check_followup_absent n st :
  tracked_comments st !! note_key n = None →
  check_followup clock n st = (st, inr false).
Proof.
  intros H. unfold check_followup. rewrite bind_run. simpl. by rewrite H.
Qed.

Lemma check_followup_due n st r :
  tracked_comments st !! note_key n = Some r →
  overdue (naive (clock (clock_reads st))) r = true →
  check_followup clock n st =
    (set_tracked_comments (insert (note_key n) (set_followup_sent r))
       (set_clock_reads (S (clock_reads st)) st), inr true).
Proof.
  intros H Hdue. unfold overdue in Hdue.
  unfold check_followup. rewrite bind_run. simpl. rewrite H.
  destruct (negb (responded r) && negb (followup_sent r)); [|done].
  simpl in Hdue.
  unfold parse_timestamp. rewrite bind_run.
  destruct (Datetime.fromisoformat _) as [c|]; [|done]. simpl.
  rewrite bind_run. simpl. unfold datetime_sub. rewrite bind_run.
  destruct (Datetime.sub _ c) as [age|]; [|done]. simpl.
  rewrite Hdue. reflexivity.
Qed.

Lemma check_followup_not_due n st r :
  tracked_comments st !! note_key n = Some r →
  overdue (naive (clock (clock_reads st))) r = false →
  same_but_clock st (check_followup clock n st).1
  ∧ (check_followup clock n st).2 ≠ inr true.
Proof.
  intros H Hdue. unfold overdue in Hdue.
  unfold check_followup. rewrite bind_run. simpl. rewrite H.
  destruct (negb (responded r) && negb (followup_sent r));
    [|by repeat split].
  simpl in Hdue.
  unfold parse_timestamp. rewrite bind_run.
  destruct (Datetime.fromisoformat _) as [c|]; [|by repeat split]. simpl.
  rewrite bind_run. simpl. unfold datetime_sub. rewrite bind_run.
  destruct (Datetime.sub _ c) as [age|]; simpl.
  - rewrite Hdue. simpl. repeat split; simpl; auto with lia.
  - repeat split; simpl; auto with lia.
Qed.

Lemma notify_mr_author_run p m n is_new needs st :
  notify_mr_author cfg p m n is_new needs st =
    (set_slack (λ l, (l ++ comment_posts cfg p m n is_new needs)%list) st,
     inr ()).
Proof.
  unfold notify_mr_author, comment_posts, send_slack_message, modify.
  destruct st as [tc db sl rv ck]. unfold set_slack; simpl.
  destruct (is_new || needs); simpl;
    [|by rewrite app_nil_r].
  destruct (bool_decide _ && should_track_user _ _); simpl;
    [|by rewrite app_nil_r].
  destruct (truthy _); simpl; [done|by rewrite app_nil_r].
Qed.

End Steps.

Section Responses.

Context (cfg : config).

(** One turn of the response loop either leaves the tracker as it is, or
    records the response; it records it when the note counts as a response
    and the record is still unanswered. *)
Lemma check_response_cases p m n x st :
  ((check_response cfg p m n x st).1 = st
   ∧ ((check_response cfg p m n x st).2 = inr () →
      ∀ r, tracked_comments st !! note_key n = Some r →
           responded r = false → is_response n x = false))
  ∨ (∃ r, tracked_comments st !! note_key n = Some r
          ∧ responded r = false ∧ is_response n x = true
          ∧ check_response cfg p m n x st
            = (record_response cfg p m n x r st, inr ())).
Proof.
  unfold check_response, is_response.
  destruct (system x); simpl; [left; by split|].
  unfold parse_timestamp. rewrite !bind_run.
  destruct (Datetime.fromisoformat (replace_Z (note_created_at x))) as [tx|];
    simpl; [|left; by split].
  rewrite !bind_run.
  destruct (Datetime.fromisoformat (replace_Z (note_created_at n))) as [tn|];
    simpl; [|left; by split].
  rewrite !bind_run. unfold datetime_gt.
  destruct (bool_decide (username (note_author x) ≠ username (note_author n)));
    simpl.
  - destruct (Datetime.gt tx tn) as [later|]; simpl; [|left; by split].
    rewrite bind_run. simpl.
    destruct (tracked_comments st !! note_key n) as [r|] eqn:Hr; simpl;
      [|left; by split].
    destruct later; simpl.
    + destruct (responded r) eqn:Hresp; simpl.
      * left; split; [done|]. intros _ r' [= <-]. congruence.
      * right. exists r. repeat split; [done..|].
        rewrite bind_run. simpl.
        unfold record_response, response_posts, send_slack_message, modify.
        destruct st as [tc db sl rv ck]. unfold set_slack, set_tracked_comments; simpl.
        destruct (bool_decide _ && bool_decide _ && should_track_user _ _); simpl;
          [|by rewrite app_nil_r].
        destruct (truthy _); simpl; [done|by rewrite app_nil_r].
    + left; by split.
  - rewrite bind_run. simpl.
    destruct (tracked_comments st !! note_key n) as [r|]; simpl; left; by split.
Qed.

Lemma record_response_lookup p m n x r st :
  tracked_comments (record_response cfg p m n x r st) !! note_key n
  = Some (set_responded (username (note_author x)) r).
Proof. unfold record_response. simpl. apply lookup_insert_eq. Qed.

(** The response loop leaves the tracker as it is, or records the first
    note of the thread that counts as a response. *)
Lemma scan_cases p m n l st :
  ((for_each (check_response cfg p m n) l st).1 = st
   ∧ ((for_each (check_response cfg p m n) l st).2 = inr () →
      ∀ r, tracked_comments st !! note_key n = Some r →
           responded r = false → Forall (λ y, is_response n y = false) l))
  ∨ (∃ r pre x post,
       tracked_comments st !! note_key n = Some r ∧ responded r = false
       ∧ l = (pre ++ x :: post)%list
       ∧ Forall (λ y, is_response n y = false) pre
       ∧ is_response n x = true
       ∧ (for_each (check_response cfg p m n) l st).1
         = record_response cfg p m n x r st).
Proof.
  revert st. induction l as [|y l IH]; intros st.
  - left. split; [done|]. intros _ r _ _. constructor.
  - rewrite for_each_cons.
    destruct (check_response_cases p m n y st) as [[Hst Hno]|(r & Hr & Hresp & Hy & Hrun)].
    + destruct (check_response cfg p m n y st) as [st1 [e|[]]] eqn:Hc;
        simpl in *; subst st1; [left; by split|].
      destruct (IH st) as [[Hst' Hno']|(r & pre & x & post & Hr & Hresp & -> & Hpre & Hx & Hrun)].
      * left. split; [done|]. intros Hok r Hr Hresp.
        constructor; [by eapply Hno|by eapply Hno'].
      * right. exists r, (y :: pre), x, post.
        repeat split; try done. constructor; [by eapply Hno|done].
    + rewrite Hrun. right. exists r, [], y, l.
      repeat split; try done.
      destruct (IH (record_response cfg p m n y r st))
        as [[Hst' _]|(r' & pre & x & post & Hr' & Hresp' & _)]; [done|].
      rewrite record_response_lookup in Hr'. by simplify_eq.
Qed.

End Responses.

Section Note.

Context (cfg : config) (clock : nat → Datetime.datetime).

Lemma same_creation_refl r : same_creation r r.
Proof. by repeat split. Qed.

(** The response loop followed by the notification of the merge request's
    author, from a tracker that holds the record [r3] of the note. *)
Lemma scan_notify_effect p m n d is_new needs st3 r3 :
  tracked_comments st3 !! note_key n = Some r3 →
  let out := (for_each (check_response cfg p m n) (notes d) ;;
              notify_mr_author cfg p m n is_new needs) st3 in
  reviewers out.1 = reviewers st3 ∧ db_file out.1 = db_file st3
  ∧ clock_reads out.1 = clock_reads st3
  ∧ (∀ k, k ≠ note_key n →
       tracked_comments out.1 !! k = tracked_comments st3 !! k)
  ∧ ∃ r' rposts cposts,
      tracked_comments out.1 !! note_key n = Some r'
      ∧ slack out.1 = (slack st3 ++ rposts ++ cposts)%list
      ∧ same_creation r3 r'
      ∧ followup_sent r' = followup_sent r3
      ∧ ((responded r' = responded r3 ∧ responder r' = responder r3
          ∧ rposts = []
          ∧ (out.2 = inr () → responded r3 = false →
             Forall (λ y, is_response n y = false) (notes d)))
         ∨ (responded r3 = false
            ∧ ∃ pre x post,
                notes d = (pre ++ x :: post)%list
                ∧ Forall (λ y, is_response n y = false) pre
                ∧ is_response n x = true
                ∧ responded r' = true
                ∧ responder r' = Some (username (note_author x))
                ∧ rposts = response_posts cfg p m n x (reviewers st3)))
      ∧ cposts = match out.2 with
                 | inr _ => comment_posts cfg p m n is_new needs
                 | inl _ => []
                 end.
Proof.
  intros Hr3 out. unfold out. clear out. rewrite bind_run.
  pose proof (scan_cases cfg p m n (notes d) st3) as Hscan.
  destruct (for_each (check_response cfg p m n) (notes d) st3)
    as [st4 res4] eqn:Hloop. simpl in Hscan.
  assert (∃ rposts r',
    reviewers st4 = reviewers st3 ∧ db_file st4 = db_file st3
    ∧ clock_reads st4 = clock_reads st3
    ∧ (∀ k, k ≠ note_key n →
         tracked_comments st4 !! k = tracked_comments st3 !! k)
    ∧ tracked_comments st4 !! note_key n = Some r'
    ∧ slack st4 = (slack st3 ++ rposts)%list
    ∧ same_creation r3 r'
    ∧ followup_sent r' = followup_sent r3
    ∧ ((responded r' = responded r3 ∧ responder r' = responder r3
        ∧ rposts = []
        ∧ (res4 = inr () → responded r3 = false →
           Forall (λ y, is_response n y = false) (notes d)))
       ∨ (responded r3 = false
          ∧ ∃ pre x post,
              notes d = (pre ++ x :: post)%list
              ∧ Forall (λ y, is_response n y = false) pre
              ∧ is_response n x = true
              ∧ responded r' = true
              ∧ responder r' = Some (username (note_author x))
              ∧ rposts = response_posts cfg p m n x (reviewers st3))))
    as (rposts & r' & Hrv & Hdb & Hck & Hoth & Hr' & Hsl & Hcr & Hfu & Hresp).
  { destruct Hscan as [[-> Hno]|(r & pre & x & post & Hr & Hresp & Hd & Hpre & Hx & ->)].
    - exists [], r3. rewrite app_nil_r.
      repeat split; auto. left. repeat split; auto.
      intros Hok Hresp. by eapply Hno.
    - assert (r = r3) as -> by congruence.
      exists (response_posts cfg p m n x (reviewers st3)),
             (set_responded (username (note_author x)) r3).
      rewrite record_response_lookup.
      repeat split; auto.
      + intros k Hne. unfold record_response; simpl. by rewrite lookup_insert_ne.
      + right. split; [done|]. exists pre, x, post. by repeat split. }
  destruct res4 as [e|[]]; simpl.
  - split_and!; try done.
    exists r', rposts, []. rewrite app_nil_r. split_and!; done.
  - rewrite notify_mr_author_run. simpl.
    split_and!; try done.
    exists r', rposts, (comment_posts cfg p m n is_new needs).
    rewrite Hsl, <-app_assoc. split_and!; done.
Qed.

Lemma check_note_effect p m ct d n st :
  note_effect cfg clock p m ct d n st
    (check_note cfg clock p m ct d n st).1
    (check_note cfg clock p m ct d n st).2.
Proof.
  unfold note_effect, check_note.
  destruct (system n) eqn:Hsys; simpl.
  { repeat split; auto. }
  rewrite bind_run.
  set (author := username (note_author n)).
  set (st1 := if bool_decide (author ≠ username (mr_author m))
              then set_reviewers (λ s, s ∪ {[ author ]}) st else st).
  assert ((if bool_decide (author ≠ username (mr_author m))
           then modify (set_reviewers (λ s, s ∪ {[ author ]}))
           else mret ()) st = (st1, inr ())) as ->.
  { unfold st1. by destruct (bool_decide _). }
  assert (tracked_comments st1 = tracked_comments st ∧ db_file st1 = db_file st
          ∧ slack st1 = slack st ∧ clock_reads st1 = clock_reads st
          ∧ reviewers st1 = if bool_decide (author ≠ username (mr_author m))
                            then reviewers st ∪ {[ author ]} else reviewers st)
    as (Htc1 & Hdb1 & Hsl1 & Hck1 & Hrv1).
  { unfold st1. by destruct (bool_decide _). }
  clearbody st1. rewrite <-Hrv1.
  destruct (should_track_user cfg author) eqn:Htrack; simpl.
  2:{ rewrite Htc1, Hdb1, Hsl1, Hck1. repeat split; auto. }
  rewrite bind_run, track_new_run. rewrite Htc1.
  set (r0 := default (new_record p m n ct) (tracked_comments st !! note_key n)).
  set (st2 := match tracked_comments st !! note_key n with
              | None => set_tracked_comments
                          (insert (note_key n) (new_record p m n ct)) st1
              | Some _ => st1
              end).
  set (is_new := bool_decide (tracked_comments st !! note_key n = None)).
  assert (match tracked_comments st !! note_key n with
          | None => (set_tracked_comments
                       (insert (note_key n) (new_record p m n ct)) st1, inr true)
          | Some _ => (st1, inr false)
          end = (st2, inr is_new)) as ->.
  { unfold st2, is_new. by destruct (tracked_comments st !! note_key n). }
  assert (tracked_comments st2 !! note_key n = Some r0
          ∧ (∀ k, k ≠ note_key n →
               tracked_comments st2 !! k = tracked_comments st !! k)
          ∧ db_file st2 = db_file st ∧ slack st2 = slack st
          ∧ clock_reads st2 = clock_reads st ∧ reviewers st2 = reviewers st1)
    as (Hr0 & Hoth2 & Hdb2 & Hsl2 & Hck2 & Hrv2).
  { unfold st2, r0. destruct (tracked_comments st !! note_key n) eqn:Hk; simpl.
    - rewrite Htc1. repeat split; auto.
    - rewrite Htc1. repeat split; auto.
      + apply lookup_insert_eq.
      + intros k Hne. by rewrite lookup_insert_ne. }
  clearbody st2 r0 is_new.
  rewrite bind_run.
  destruct (overdue (naive (clock (clock_reads st))) r0) eqn:Hneeds.
  - (* the reminder is due *)
    rewrite (check_followup_due clock n st2 r0 Hr0) by (by rewrite Hck2).
    set (r3 := set_followup_sent r0).
    set (st3 := set_tracked_comments (insert (note_key n) r3)
                  (set_clock_reads (S (clock_reads st2)) st2)).
    assert (tracked_comments st3 !! note_key n = Some r3) as Hr3
      by apply lookup_insert_eq.
    destruct (scan_notify_effect p m n d is_new true st3 r3 Hr3)
      as (Hrv & Hdb & Hck & Hoth & r' & rposts & cposts & Hr' & Hsl & Hcr & Hfu & Hresp & Hc).
    simpl in Hrv, Hdb, Hck, Hoth, Hsl.
    split_and!; try congruence; try lia.
    { intros k Hne. rewrite Hoth by done. unfold st3; simpl.
      rewrite lookup_insert_ne by done. by apply Hoth2. }
    exists r', rposts, cposts.
    split_and!; try done;
      [congruence|by rewrite Hfu, orb_true_r|rewrite Hrv; exact Hresp].
  - (* no reminder *)
    destruct (check_followup_not_due clock n st2 r0 Hr0) as [Hsame Hres];
      [by rewrite Hck2|].
    destruct (check_followup clock n st2) as [st3 res3]. simpl in Hsame, Hres.
    destruct Hsame as (Htc3 & Hdb3 & Hsl3 & Hrv3 & Hck3).
    destruct res3 as [e|needs]; simpl.
    + split_and!; try congruence; try lia.
      { intros k Hne. rewrite Htc3. by apply Hoth2. }
      exists r0, [], []. rewrite app_nil_r, orb_false_r.
      split_and!; try done; try congruence; try apply same_creation_refl.
      left. by split_and!.
    + assert (needs = false) as -> by (destruct needs; congruence).
      assert (tracked_comments st3 !! note_key n = Some r0) as Hr3
        by (by rewrite Htc3).
      destruct (scan_notify_effect p m n d is_new false st3 r0 Hr3)
        as (Hrv & Hdb & Hck & Hoth & r' & rposts & cposts & Hr' & Hsl & Hcr & Hfu & Hresp & Hc).
      split_and!; try congruence; try lia.
      { intros k Hne. rewrite Hoth, Htc3 by done. by apply Hoth2. }
      exists r', rposts, cposts. rewrite orb_false_r.
      split_and!; try done; try congruence.
      rewrite Hrv. exact Hresp.
Qed.

End Note.

(** ** How the tracker evolves *)

Lemma responses_about_app k l1 l2 :
  responses_about k (l1 ++ l2) = (responses_about k l1 + responses_about k l2)%nat.
Proof. unfold responses_about. by rewrite filter_app, length_app. Qed.

Lemma posts_about_app k l1 l2 :
  posts_about k (l1 ++ l2) = (posts_about k l1 ++ posts_about k l2)%list.
Proof. unfold posts_about. by rewrite filter_app. Qed.

Lemma record_evolves_refl r : record_evolves r r.
Proof. by repeat split. Qed.

Lemma record_evolves_trans r1 r2 r3 :
  record_evolves r1 r2 → record_evolves r2 r3 → record_evolves r1 r3.
Proof.
  intros ((?&?&?&?&?) & Hr12 & Hf12 & Hw12) ((?&?&?&?&?) & Hr23 & Hf23 & Hw23).
  split_and!; auto.
  { unfold same_creation. split_and!; congruence. }
  intros Heq. destruct (responded r1) eqn:Hresp1.
  - rewrite Hw23, Hw12; auto. rewrite Hr12; auto.
  - destruct (responded r2) eqn:Hresp2.
    + by rewrite Hr23 in Heq.
    + rewrite Hw23, Hw12; auto; congruence.
Qed.

Lemma evolves_preorder : PreOrder evolves.
Proof.
  split.
  - intros st. split_and!.
    + intros k r Hk. exists r. split; [done|apply record_evolves_refl].
    + exists []. rewrite app_nil_r. split; [done|]. intros k.
      unfold responses_about; simpl. split; [lia|done].
    + by intros ?.
  - intros st1 st2 st3 (Hrec12 & (new12 & Hsl12 & Hn12) & Hdb12)
      (Hrec23 & (new23 & Hsl23 & Hn23) & Hdb23).
    split_and!.
    + intros k r1 Hk. destruct (Hrec12 k r1 Hk) as (r2 & Hk2 & He12).
      destruct (Hrec23 k r2 Hk2) as (r3 & Hk3 & He23).
      exists r3. split; [done|]. by eapply record_evolves_trans.
    + exists (new12 ++ new23)%list. split.
      { by rewrite Hsl23, Hsl12, app_assoc. }
      intros k. rewrite responses_about_app.
      destruct (Hn12 k) as [Hle12 Hone12], (Hn23 k) as [Hle23 Hone23].
      assert (is_responded (tracked_comments st1) k →
              is_responded (tracked_comments st2) k) as Hkeep12.
      { intros (r & Hr & Hresp). destruct (Hrec12 k r Hr) as (r' & Hr' & _ & Hev & _).
        exists r'. auto. }
      assert (is_responded (tracked_comments st2) k →
              is_responded (tracked_comments st3) k) as Hkeep23.
      { intros (r & Hr & Hresp). destruct (Hrec23 k r Hr) as (r' & Hr' & _ & Hev & _).
        exists r'. auto. }
      destruct (decide (responses_about k new12 = 1%nat)) as [H1|H1].
      * destruct (Hone12 H1) as [Hnot Hyes].
        assert (responses_about k new23 = 0%nat) as H0.
        { destruct (decide (responses_about k new23 = 1%nat)) as [H2|H2]; [|lia].
          destruct (Hone23 H2) as [Hnot' _]. done. }
        split; [lia|]. intros _. auto.
      * assert (responses_about k new12 = 0%nat) as H0 by lia.
        split; [lia|]. intros Hone. destruct Hone23 as [Hnot Hyes]; [lia|].
        split; [|done]. intros Hr. apply Hnot. auto.
    + intros Hok. destruct (Hdb12 Hok) as [Hok2 Hsub12].
      destruct (Hdb23 Hok2) as [Hok3 Hsub23]. split; [done|]. by etrans.
Qed.

#[global] Existing Instance evolves_preorder.

Lemma untouched_preorder k : PreOrder (untouched k).
Proof.
  split.
  - by intros st.
  - intros st1 st2 st3 [H1 H2] [H3 H4]. split; congruence.
Qed.

#[global] Existing Instance untouched_preorder.

Lemma created_at_time_preorder ct : PreOrder (created_at_time ct).
Proof.
  split.
  - intros st. split; [reflexivity|]. intros k r' Hnone Hsome. congruence.
  - intros st1 st2 st3 [He12 Hn12] [He23 Hn23]. split; [by etrans|].
    intros k r3 Hnone Hsome.
    destruct (tracked_comments st2 !! k) as [r2|] eqn:Hk2.
    + destruct He23 as (Hrec & _). destruct (Hrec k r2 Hk2) as (r3' & Hk3 & Hcr & _).
      assert (r3' = r3) as -> by congruence.
      destruct Hcr as (_ & _ & _ & _ & ->). by eapply Hn12.
    + by eapply Hn23.
Qed.

#[global] Existing Instance created_at_time_preorder.

Section Evolution.

Context (cfg : config) (clock : nat → Datetime.datetime).

Lemma responses_about_comment_posts k p m n is_new needs :
  responses_about k (comment_posts cfg p m n is_new needs) = 0%nat.
Proof.
  unfold comment_posts, responses_about.
  destruct (_ && _); [|done]. rewrite filter_cons_False; [done|].
  simpl. intros [? _]. by destruct needs.
Qed.

Lemma responses_about_response_posts k p m n x rv :
  (responses_about k (response_posts cfg p m n x rv) ≤ 1)%nat
  ∧ (responses_about k (response_posts cfg p m n x rv) = 1%nat →
     k = note_key n).
Proof.
  unfold response_posts, responses_about.
  destruct (_ && _); [|simpl; split; [lia|done]].
  destruct (decide (k = note_key n)) as [->|Hne].
  - rewrite filter_cons_True by done. simpl. split; [lia|done].
  - rewrite filter_cons_False; [simpl; split; [lia|done]|].
    simpl. intros [_ ?]. done.
Qed.

Lemma about_response_posts p m n x rv post :
  post ∈ response_posts cfg p m n x rv →
  kind post = Response ∧ about post = note_key n.
Proof.
  unfold response_posts. destruct (_ && _); [|by intros ?%elem_of_nil].
  by intros ->%list_elem_of_singleton.
Qed.

Lemma about_comment_posts p m n is_new needs post :
  post ∈ comment_posts cfg p m n is_new needs →
  kind post ≠ Response ∧ about post = note_key n.
Proof.
  unfold comment_posts. destruct (_ && _); [|by intros ?%elem_of_nil].
  intros ->%list_elem_of_singleton. simpl. by destruct needs.
Qed.

Lemma posts_about_other k l :
  (∀ post, post ∈ l → about post ≠ k) → posts_about k l = [].
Proof.
  intros H. unfold posts_about. induction l as [|x l IH]; [done|].
  rewrite filter_cons_False; [|by apply H; left].
  apply IH. intros post Hin. apply H. by right.
Qed.

(** Processing a note lets the tracker evolve. *)
Lemma check_note_evolves p m ct d n st :
  evolves st (check_note cfg clock p m ct d n st).1.
Proof.
  pose proof (check_note_effect cfg clock p m ct d n st) as Heff.
  destruct (check_note cfg clock p m ct d n st) as [st' res]. simpl in *.
  destruct Heff as (Hrv & Hdb & Hck & Hoth & Hkey).
  assert (∀ k r, tracked_comments st !! k = Some r →
            ∃ r', tracked_comments st' !! k = Some r' ∧ record_evolves r r')
    as Hrec.
  { intros k r Hk. destruct (decide (k = note_key n)) as [->|Hne].
    2:{ exists r. rewrite Hoth by done. split; [done|apply record_evolves_refl]. }
    destruct (system n || negb (should_track_user cfg _)).
    { destruct Hkey as [-> _]. exists r. split; [done|apply record_evolves_refl]. }
    destruct Hkey as (r' & rposts & cposts & Hr' & _ & Hcr & Hfu & Hresp & _).
    rewrite Hk in Hcr, Hfu, Hresp. simpl in Hcr, Hfu, Hresp.
    exists r'. split; [done|]. split_and!; [done|..].
    - intros Hr. destruct Hresp as [(-> & _)|(? & _)]; congruence.
    - intros Hf. rewrite Hfu, Hf. done.
    - intros Heq. destruct Hresp as [(_ & -> & _)|(? & _ & _ & _ & _ & _ & _ & ? & _)];
        [done|congruence]. }
  split_and!; [done|..].
  - destruct (system n || negb (should_track_user cfg _)).
    { destruct Hkey as [_ ->]. exists []. rewrite app_nil_r. split; [done|].
      intros k. unfold responses_about. simpl. split; [lia|done]. }
    destruct Hkey as (r' & rposts & cposts & Hr' & Hsl & Hcr & Hfu & Hresp & Hc).
    exists (rposts ++ cposts)%list. split; [done|]. intros k.
    rewrite responses_about_app.
    assert (responses_about k cposts = 0%nat) as ->.
    { rewrite Hc. destruct res; [done|apply responses_about_comment_posts]. }
    rewrite Nat.add_0_r.
    destruct Hresp as [(_ & _ & -> & _)|(Hr0 & pre & x & post & _ & _ & _ & Hresp' & _ & ->)].
    { unfold responses_about. simpl. split; [lia|done]. }
    destruct (responses_about_response_posts k p m n x (reviewers st')) as [Hle Hone].
    split; [done|]. intros ->%Hone. split.
    + intros (r & Hr & Hyes). rewrite Hr in Hr0. simpl in Hr0. congruence.
    + by exists r'.
  - intros Hok. unfold db_ok in *. rewrite Hdb. split; [|done].
    etrans; [exact Hok|]. intros k [r Hk]%elem_of_dom.
    destruct (Hrec k r Hk) as (r' & Hk' & _). apply elem_of_dom. by eexists.
Qed.

(** Processing a note leaves every other comment alone. *)
Lemma check_note_untouched k p m ct d n st :
  (system n = false → note_key n ≠ k) →
  untouched k st (check_note cfg clock p m ct d n st).1.
Proof.
  intros Hne.
  pose proof (check_note_effect cfg clock p m ct d n st) as Heff.
  destruct (check_note cfg clock p m ct d n st) as [st' res]. simpl in *.
  destruct Heff as (Hrv & Hdb & Hck & Hoth & Hkey).
  destruct (system n) eqn:Hsys; simpl in Hkey.
  { destruct Hkey as [Htc Hsl]. split; congruence. }
  specialize (Hne eq_refl).
  split; [by apply Hoth|].
  destruct (negb (should_track_user cfg _)).
  { by destruct Hkey as [_ ->]. }
  destruct Hkey as (r' & rposts & cposts & Hr' & Hsl & Hcr & Hfu & Hresp & Hc).
  rewrite Hsl, !posts_about_app.
  rewrite (posts_about_other k rposts), (posts_about_other k cposts).
  - by rewrite !app_nil_r.
  - intros post Hin. rewrite Hc in Hin. destruct res; [by apply elem_of_nil in Hin|].
    apply about_comment_posts in Hin as [_ ->]. done.
  - intros post Hin.
    destruct Hresp as [(_ & _ & -> & _)|(_ & pre & x & post' & _ & _ & _ & _ & _ & ->)].
    + by apply elem_of_nil in Hin.
    + apply about_response_posts in Hin as [_ ->]. done.
Qed.

(** A record created while processing a note carries [ct]. *)
Lemma check_note_created p m ct d n st :
  created_at_time ct st (check_note cfg clock p m ct d n st).1.
Proof.
  split; [apply check_note_evolves|].
  pose proof (check_note_effect cfg clock p m ct d n st) as Heff.
  destruct (check_note cfg clock p m ct d n st) as [st' res]. simpl in *.
  destruct Heff as (Hrv & Hdb & Hck & Hoth & Hkey).
  intros k r' Hnone Hsome.
  destruct (decide (k = note_key n)) as [->|Hne].
  2:{ rewrite Hoth in Hsome by done. congruence. }
  destruct (system n || negb (should_track_user cfg _)).
  { destruct Hkey as [Htc _]. congruence. }
  destruct Hkey as (r'' & rposts & cposts & Hr' & _ & Hcr & _).
  rewrite Hnone in Hcr. simpl in Hcr.
  assert (r'' = r') as -> by congruence.
  by destruct Hcr as (_ & _ & _ & _ & ->).
Qed.

End Evolution.

Lemma evolves_housekeeping : Housekeeping evolves.
Proof.
  split.
  - intros f st. assert (evolves st st) as (? & ? & ?) by reflexivity. by split_and!.
  - intros n st. assert (evolves st st) as (? & ? & ?) by reflexivity. by split_and!.
  - intros st. assert (evolves st st) as (? & ? & _) by reflexivity.
    split_and!; [done..|]. intros Hok. split; [by unfold db_ok|apply Hok].
Qed.

#[global] Existing Instance evolves_housekeeping.

Lemma untouched_housekeeping k : Housekeeping (untouched k).
Proof. by split. Qed.

#[global] Existing Instance untouched_housekeeping.

Lemma created_at_time_housekeeping ct : Housekeeping (created_at_time ct).
Proof.
  split.
  - intros f st. split; [apply keeps_reviewers|]. simpl. congruence.
  - intros n st. split; [apply keeps_clock|]. simpl. congruence.
  - intros st. split; [apply keeps_save|]. simpl. congruence.
Qed.

#[global] Existing Instance created_at_time_housekeeping.

(** ** From a note to a run *)

Section Lifting.

Context (cfg : config) (clock : nat → Datetime.datetime).
Context (R : relation tracker) `{!PreOrder R} `{!Housekeeping R}.

Lemma check_discussions_keeps p m ct ds :
  (∀ d n st, d ∈ ds → n ∈ notes d →
     R st (check_note cfg clock p m ct d n st).1) →
  ∀ st, R st (check_discussions cfg clock p m ct ds st).1.
Proof.
  intros Hnote. unfold check_discussions.
  apply (for_each_keeps R). intros d st Hd.
  apply (for_each_keeps R). intros n st' Hn. by apply Hnote.
Qed.

Lemma check_merge_request_keeps p ct md :
  (∀ d n st, d ∈ discussions md → n ∈ notes d →
     R st (check_note cfg clock p (mr md) ct d n st).1) →
  ∀ st, R st (check_merge_request cfg clock p ct md st).1.
Proof.
  intros Hnote st. unfold check_merge_request.
  destruct (details md) as [declared|]; [|reflexivity].
  rewrite bind_run. simpl. rewrite bind_run.
  pose proof (check_discussions_keeps p (mr md) ct (discussions md) Hnote
                (set_reviewers (λ _, list_to_set (username <$> declared)) st))
    as Hds.
  destruct (check_discussions _ _ _ _ _ _ _) as [st1 [e|[]]]; simpl in *.
  - etrans; [apply keeps_reviewers|exact Hds].
  - etrans; [apply keeps_reviewers|]. etrans; [exact Hds|apply keeps_save].
Qed.

Lemma check_for_new_comments_keeps projects st0 :
  (∀ p md d n st, p ∈ projects → md ∈ get_merge_requests p →
     d ∈ discussions md → n ∈ notes d →
     R st (check_note cfg clock (proj p) (mr md)
             (Datetime.isoformat (naive (clock (clock_reads st0)))) d n st).1) →
  R st0 (check_for_new_comments cfg clock projects st0).1.
Proof.
  intros Hnote. unfold check_for_new_comments. rewrite bind_run. simpl.
  etrans; [apply (keeps_clock (S (clock_reads st0)))|].
  apply (for_each_keeps R). intros p st Hp.
  apply (for_each_keeps R). intros md st' Hmd.
  apply check_merge_request_keeps. intros d n st'' Hd Hn. by apply Hnote.
Qed.

End Lifting.

Section LiftingRun.

Context (cfg : config) (clock : nat → Datetime.datetime).
Context (R : relation tracker) `{!PreOrder R} `{!Housekeeping R}.

Lemma try_except_state (m : M unit) st : (try_except m st).1 = (m st).1.
Proof. unfold try_except. by destruct (m st) as [st' [e|[]]]. Qed.

Lemma run_keeps polls :
  (∀ projects p md d n ct st, projects ∈ polls → p ∈ projects →
     md ∈ get_merge_requests p → d ∈ discussions md → n ∈ notes d →
     R st (check_note cfg clock (proj p) (mr md) ct d n st).1) →
  ∀ st, R st (run cfg clock polls st).1.
Proof.
  intros Hnote. unfold run. apply (for_each_keeps R).
  intros projects st Hin. rewrite try_except_state.
  apply (check_for_new_comments_keeps cfg clock R).
  intros. by eapply Hnote.
Qed.

End LiftingRun.

(** * The claims *)

(** ** The ledger only grows *)

(** C6. A note whose key is absent from the ledger, and that is processed
    (not a system note, author tracked), gets its record then, with the
    fields of a new record.  Over any run the keys of the ledger only grow,
    a record once present keeps the fields it was created with, and the keys
    of the ledger file only grow too (when the file starts within the
    ledger, as after [__init__], every write being taken to succeed). *)
Theorem ledger_only_grows (cfg : config) (clock : nat → Datetime.datetime) :
  (∀ p m ct d n st,
     system n = false →
     should_track_user cfg (username (note_author n)) = true →
     tracked_comments st !! note_key n = None →
     ∃ r', tracked_comments (check_note cfg clock p m ct d n st).1 !! note_key n
           = Some r'
           ∧ same_creation (new_record p m n ct) r')
  ∧ (∀ polls st,
       dom (tracked_comments st)
         ⊆ dom (tracked_comments (run cfg clock polls st).1)
       ∧ (∀ k r, tracked_comments st !! k = Some r →
            ∃ r', tracked_comments (run cfg clock polls st).1 !! k = Some r'
                  ∧ same_creation r r')
       ∧ (db_ok st →
            db_ok (run cfg clock polls st).1
            ∧ dom (db_file st) ⊆ dom (db_file (run cfg clock polls st).1))).
Proof.
  split.
  - intros p m ct d n st Hsys Htrack Hnone.
    pose proof (check_note_effect cfg clock p m ct d n st) as Heff.
    destruct Heff as (_ & _ & _ & _ & Hkey).
    rewrite Hsys, Htrack in Hkey. simpl in Hkey.
    destruct Hkey as (r' & _ & _ & Hr' & _ & Hcr & _).
    rewrite Hnone in Hcr. by exists r'.
  - intros polls st.
    assert (evolves st (run cfg clock polls st).1) as (Hrec & _ & Hdb).
    { apply (run_keeps cfg clock evolves). intros. apply check_note_evolves. }
    split_and!.
    + intros k [r Hk]%elem_of_dom. destruct (Hrec k r Hk) as (r' & Hk' & _).
      apply elem_of_dom. by eexists.
    + intros k r Hk. destruct (Hrec k r Hk) as (r' & Hk' & Hcr & _). by exists r'.
    + done.
Qed.

(** A run over three polls from the ledger that holds the comment: the
    record is still there, created as it was. *)
Lemma ledger_only_grows_witness :
  ∃ r', tracked_comments
          (run Scenario.cfg_all Scenario.clock
             [Scenario.poll [Scenario.comment];
              Scenario.poll [Scenario.comment; Scenario.answer]; []]
             (init Scenario.seen)).1 !! "456789" = Some r'
        ∧ rec_notified_at r' = "2023-04-01T14:35:00".
Proof.
  destruct (proj2 (ledger_only_grows Scenario.cfg_all Scenario.clock)
              [Scenario.poll [Scenario.comment];
               Scenario.poll [Scenario.comment; Scenario.answer]; []]
              (init Scenario.seen)) as (_ & Hrec & _).
  destruct (Hrec "456789" _ eq_refl) as (r' & Hr' & Hcr).
  exists r'. split; [exact Hr'|]. by destruct Hcr as (_ & _ & _ & _ & ->).
Defined.

(** ** Comments of requests that are no longer open *)

(** C10. When no open merge request returned during a run holds a note with
    the key [k], the run leaves the record of [k] as it is (its
    [followup_sent] in particular) and posts nothing about [k], whatever the
    clock reads. *)
Theorem closed_request_untouched (cfg : config)
    (clock : nat → Datetime.datetime)
    (polls : list (list project_data)) (st : tracker) (k : string) :
  (∀ projects p md d n,
     projects ∈ polls → p ∈ projects → md ∈ merge_requests p →
     state (mr md) = opened →
     d ∈ discussions md → n ∈ notes d → system n = false → note_key n ≠ k) →
  tracked_comments (run cfg clock polls st).1 !! k = tracked_comments st !! k
  ∧ posts_about k (slack (run cfg clock polls st).1) = posts_about k (slack st).
Proof.
  intros Hclosed.
  apply (run_keeps cfg clock (untouched k)).
  intros projects p md d n ct st' Hpoll Hp Hmd Hd Hn.
  apply check_note_untouched. intros Hsys.
  apply list_elem_of_filter in Hmd as [Hopen Hmd].
  by eapply Hclosed.
Qed.


(** The merge request was merged with the comment unanswered: two polls
    later, 25 hours after the comment, the record is as it was and nothing
    was posted about it. *)
Lemma closed_request_untouched_witness :
  tracked_comments
    (run Scenario.cfg_all Scenario.clock
       [Scenario.poll_of Scenario.closed_mr0 [Scenario.thread [Scenario.comment]];
        Scenario.poll_of Scenario.closed_mr0 [Scenario.thread [Scenario.comment]]]
       (init Scenario.seen)).1 !! "456789"
  = tracked_comments (init Scenario.seen) !! "456789"
  ∧ posts_about "456789"
      (slack (run Scenario.cfg_all Scenario.clock
                [Scenario.poll_of Scenario.closed_mr0
                   [Scenario.thread [Scenario.comment]];
                 Scenario.poll_of Scenario.closed_mr0
                   [Scenario.thread [Scenario.comment]]]
                (init Scenario.seen)).1)
    = posts_about "456789" (slack (init Scenario.seen)).
Proof.
  apply closed_request_untouched.
  intros projects p md d n Hpoll Hp Hmd Hopen _ _ _.
  assert (projects = Scenario.poll_of Scenario.closed_mr0
                       [Scenario.thread [Scenario.comment]]) as ->.
  { apply elem_of_cons in Hpoll as [->|Hpoll]; [done|].
    by apply list_elem_of_singleton in Hpoll. }
  apply list_elem_of_singleton in Hp as ->.
  apply list_elem_of_singleton in Hmd as ->.
  simpl in Hopen. discriminate.
Defined.

(** ** What [notified_at] holds *)

(** C8, as the code has it.  A record created during a cycle carries as
    [notified_at] the clock reading taken when the cycle started, in ISO
    format, whether or not a message is posted; over any run [notified_at]
    never changes. *)
Theorem notified_at_is_cycle_start (cfg : config)
    (clock : nat → Datetime.datetime) :
  (∀ projects st k r',
     tracked_comments st !! k = None →
     tracked_comments (check_for_new_comments cfg clock projects st).1 !! k
       = Some r' →
     rec_notified_at r' = Datetime.isoformat (naive (clock (clock_reads st))))
  ∧ (∀ polls st k r,
       tracked_comments st !! k = Some r →
       ∃ r', tracked_comments (run cfg clock polls st).1 !! k = Some r'
             ∧ rec_notified_at r' = rec_notified_at r).
Proof.
  split.
  - intros projects st k r' Hnone Hsome.
    assert (created_at_time
              (Datetime.isoformat (naive (clock (clock_reads st))))
              st (check_for_new_comments cfg clock projects st).1) as [_ Hct].
    { apply (check_for_new_comments_keeps cfg clock
               (created_at_time
                  (Datetime.isoformat (naive (clock (clock_reads st)))))).
      intros. apply check_note_created. }
    by eapply Hct.
  - intros polls st k r Hk.
    assert (evolves st (run cfg clock polls st).1) as (Hrec & _).
    { apply (run_keeps cfg clock evolves). intros. apply check_note_evolves. }
    destruct (Hrec k r Hk) as (r' & Hk' & (_ & _ & _ & _ & Hna) & _).
    by exists r'.
Qed.

(** The comment is first seen in a cycle that starts at 2023-04-02 15:30:45
    and is still in the ledger after a later poll, with that reading. *)
Lemma notified_at_is_cycle_start_witness :
  ∃ r', tracked_comments
          (run Scenario.cfg_all Scenario.clock
             [Scenario.poll [Scenario.comment; Scenario.answer]]
             (check_for_new_comments Scenario.cfg_all Scenario.clock
                (Scenario.poll [Scenario.comment]) (init ∅)).1).1 !! "456789"
        = Some r'
        ∧ rec_notified_at r' = "2023-04-02T15:30:45".
Proof.
  pose proof (proj1 (notified_at_is_cycle_start Scenario.cfg_all Scenario.clock)
                (Scenario.poll [Scenario.comment]) (init ∅) "456789")
    as Hfirst.
  destruct (tracked_comments
              (check_for_new_comments Scenario.cfg_all Scenario.clock
                 (Scenario.poll [Scenario.comment]) (init ∅)).1 !! "456789")
    as [r|] eqn:Hr; [|vm_compute in Hr; discriminate].
  specialize (Hfirst r eq_refl eq_refl).
  destruct (proj2 (notified_at_is_cycle_start Scenario.cfg_all Scenario.clock)
              [Scenario.poll [Scenario.comment; Scenario.answer]]
              _ "456789" r Hr) as (r' & Hr' & Hna).
  exists r'. split; [exact Hr'|]. rewrite Hna, Hfirst. vm_compute. reflexivity.
Defined.

(** C8 fails as stated: the author comments on the author's own merge
    request; the record gets a [notified_at], and no message was posted. *)
Lemma notified_at_without_notification :
  let out := check_for_new_comments Scenario.cfg_all Scenario.clock
               (Scenario.poll [Scenario.own_comment]) (init ∅) in
  rec_notified_at <$> Scenario.record_of "456792" out
    = Some "2023-04-02T15:30:45"
  ∧ slack out.1 = [] ∧ out.2 = inr ().
Proof. vm_compute. done. Qed.


(** ** Responses *)

Lemma first_response_unique (n : note) pre x post pre' x' post' :
  (pre ++ x :: post)%list = (pre' ++ x' :: post')%list →
  Forall (λ y, is_response n y = false) pre → is_response n x = true →
  Forall (λ y, is_response n y = false) pre' → is_response n x' = true →
  x = x'.
Proof.
  revert pre'. induction pre as [|y pre IH]; intros [|y' pre'] Heq Hpre Hx Hpre' Hx';
    simpl in Heq; simplify_eq.
  - done.
  - apply Forall_cons in Hpre' as [Hy' _]. congruence.
  - apply Forall_cons in Hpre as [Hy _]. congruence.
  - apply Forall_cons in Hpre as [_ Hpre]. apply Forall_cons in Hpre' as [_ Hpre'].
    by eapply IH.
Qed.

Lemma run_evolves cfg clock polls st : evolves st (run cfg clock polls st).1.
Proof. apply (run_keeps cfg clock evolves). intros. apply check_note_evolves. Qed.

(** C2. Over any run a record that is marked responded stays so, with the
    same responder, and no further "author responded" message about it is
    posted; [responder] changes only when [responded] does.  When processing
    a note turns its record to responded, the responder is the author of the
    first note of the thread that counts as a response. *)
Theorem responded_once (cfg : config) (clock : nat → Datetime.datetime) :
  (∀ polls st k r,
     tracked_comments st !! k = Some r →
     ∃ r', tracked_comments (run cfg clock polls st).1 !! k = Some r'
           ∧ (responded r = true →
              responded r' = true ∧ responder r' = responder r
              ∧ responses_about k (slack (run cfg clock polls st).1)
                = responses_about k (slack st))
           ∧ (responded r' = responded r → responder r' = responder r))
  ∧ (∀ p m ct d n st r',
       ¬ is_responded (tracked_comments st) (note_key n) →
       tracked_comments (check_note cfg clock p m ct d n st).1 !! note_key n
         = Some r' →
       responded r' = true →
       ∃ pre x post,
         notes d = (pre ++ x :: post)%list
         ∧ Forall (λ y, is_response n y = false) pre
         ∧ is_response n x = true
         ∧ responder r' = Some (username (note_author x))).
Proof.
  split.
  - intros polls st k r Hk.
    destruct (run_evolves cfg clock polls st) as (Hrec & (new & Hsl & Hnew) & _).
    destruct (Hrec k r Hk) as (r' & Hk' & _ & Hresp & _ & Hwho).
    exists r'. split_and!; [done| |done].
    intros Hyes. split; [by apply Hresp|]. split.
    { apply Hwho. rewrite Hyes. by apply Hresp. }
    rewrite Hsl, responses_about_app.
    destruct (Hnew k) as [Hle Hone].
    destruct (decide (responses_about k new = 1%nat)) as [H1|H1]; [|lia].
    destruct (Hone H1) as [Hnot _]. destruct Hnot. by exists r.
  - intros p m ct d n st r' Hnot Hr' Hyes.
    pose proof (check_note_effect cfg clock p m ct d n st) as Heff.
    destruct Heff as (_ & _ & _ & _ & Hkey).
    destruct (system n || negb (should_track_user cfg _)).
    { destruct Hkey as [Htc _]. rewrite Htc in Hr'. destruct Hnot. by exists r'. }
    destruct Hkey as (r'' & rposts & cposts & Hr'' & _ & _ & _ & Hresp & _).
    assert (r'' = r') as -> by congruence.
    destruct Hresp as [(Heq & _)|(_ & pre & x & post & Hd & Hpre & Hx & _ & Hwho & _)].
    + destruct (tracked_comments st !! note_key n) as [r|] eqn:Hr; simpl in Heq.
      * destruct Hnot. exists r. split; [done|congruence].
      * congruence.
    + by exists pre, x, post.
Qed.

(** The comment is answered in the second poll; two polls later, with a
    second answer in the thread, the responder is still the first one. *)
Lemma responded_once_witness :
  ∃ r', tracked_comments
          (run Scenario.cfg_all Scenario.clock
             [Scenario.poll [Scenario.comment; Scenario.answer;
                             Scenario.second_answer]]
             (run Scenario.cfg_all Scenario.clock
                [Scenario.poll [Scenario.comment];
                 Scenario.poll [Scenario.comment; Scenario.answer]]
                (init ∅)).1).1 !! "456789" = Some r'
        ∧ responded r' = true ∧ responder r' = Some "author1".
Proof.
  destruct (tracked_comments
              (run Scenario.cfg_all Scenario.clock
                 [Scenario.poll [Scenario.comment];
                  Scenario.poll [Scenario.comment; Scenario.answer]]
                 (init ∅)).1 !! "456789") as [r|] eqn:Hr;
    [|vm_compute in Hr; discriminate].
  assert (responded r = true ∧ responder r = Some "author1") as [Hyes Hwho].
  { vm_compute in Hr. injection Hr as <-. by split. }
  destruct (proj1 (responded_once Scenario.cfg_all Scenario.clock)
              [Scenario.poll [Scenario.comment; Scenario.answer;
                              Scenario.second_answer]]
              _ "456789" r Hr) as (r' & Hr' & Hstay & _).
  destruct (Hstay Hyes) as (Hyes' & Hwho' & _).
  exists r'. split_and!; [exact Hr'|exact Hyes'|by rewrite Hwho'].
Defined.



Lemma in_comment_posts cfg p m n is_new needs post :
  post ∈ comment_posts cfg p m n is_new needs →
  kind post = (if needs then FollowUp else NewComment)
  ∧ about post = note_key n
  ∧ is_new || needs = true
  ∧ username (note_author n) ≠ username (mr_author m)
  ∧ should_track_user cfg (username (mr_author m)) = true
  ∧ get_slack_user_id cfg (username (mr_author m)) = Some (channel post)
  ∧ text post = format_comment_notification cfg p m n needs.
Proof.
  unfold comment_posts.
  destruct (is_new || needs); [|by intros ?%elem_of_nil].
  destruct (bool_decide (username (note_author n) ≠ username (mr_author m)))
    eqn:Hn; [|by intros ?%elem_of_nil].
  destruct (should_track_user cfg _) eqn:Htrack; [|by intros ?%elem_of_nil].
  destruct (get_slack_user_id cfg _) as [u|] eqn:Hu; [|by intros ?%elem_of_nil].
  destruct (truthy (Some u)); [|by intros ?%elem_of_nil]. simpl.
  intros ->%list_elem_of_singleton. simpl.
  apply bool_decide_eq_true in Hn. by split_and!.
Qed.



Example response_notification_sent :
  Scenario.kinds
    (run Scenario.cfg_all Scenario.clock
       [Scenario.poll [Scenario.comment];
        Scenario.poll [Scenario.comment; Scenario.answer];
        Scenario.poll [Scenario.comment; Scenario.answer;
                       Scenario.second_answer]]
       (init ∅))
  = [(FollowUp, "U1"); (Response, "U2")].
Proof. vm_compute. reflexivity. Qed.


(** ** Messages to the author of the merge request *)

Lemma overdue_unsent now r : overdue now r = true → followup_sent r = false.
Proof. unfold overdue. destruct (responded r), (followup_sent r); done. Qed.

(** Whether the reminder was due when the note was processed shows in the
    ledger: the flag is set by that step. *)
Lemma followup_marked_iff cfg clock p m ct d n st :
  system n = false →
  should_track_user cfg (username (note_author n)) = true →
  followup_marked (note_key n) st (check_note cfg clock p m ct d n st).1
  ↔ overdue (naive (clock (clock_reads st)))
      (default (new_record p m n ct) (tracked_comments st !! note_key n)) = true.
Proof.
  intros Hsys Htrack.
  pose proof (check_note_effect cfg clock p m ct d n st) as Heff.
  destruct Heff as (_ & _ & _ & _ & Hkey).
  rewrite Hsys, Htrack in Hkey. simpl in Hkey.
  destruct Hkey as (r' & rposts & cposts & Hr' & _ & _ & Hfu & _).
  split.
  - intros [Hnot (r'' & Hr'' & Hset)].
    assert (r'' = r') as -> by congruence.
    rewrite Hset in Hfu.
    destruct (tracked_comments st !! note_key n) as [r|] eqn:Hr; simpl in *.
    + destruct (followup_sent r) eqn:Hf; [|done].
      destruct Hnot. by exists r.
    + done.
  - intros Hdue. rewrite Hdue, orb_true_r in Hfu.
    apply overdue_unsent in Hdue. split; [|by exists r'].
    intros (r & Hr & Hf). rewrite Hr in Hdue. simpl in Hdue. congruence.
Qed.

(** C4. Processing a note posts at most one message of the "new comment" or
    "follow-up" kind.  When it posts one, the message is about that note; the
    note was processed (not a system note, author tracked) and was absent
    from the ledger or has just been marked for follow-up; its author is not
    the author of the merge request, who passes the user filter and whose
    Slack identity receives the message; and the message is a follow-up
    exactly when the note has just been marked, new or not. *)
Theorem comment_notification (cfg : config) (clock : nat → Datetime.datetime)
    (p : project) (m : merge_request) (ct : string) (d : discussion)
    (n : note) (st : tracker) :
  ∃ new,
    slack (check_note cfg clock p m ct d n st).1 = (slack st ++ new)%list
    ∧ (length (filter (λ post, kind post ≠ Response) new) ≤ 1)%nat
    ∧ ∀ post, post ∈ new → kind post ≠ Response →
        about post = note_key n
        ∧ system n = false
        ∧ should_track_user cfg (username (note_author n)) = true
        ∧ (tracked_comments st !! note_key n = None
           ∨ followup_marked (note_key n) st
               (check_note cfg clock p m ct d n st).1)
        ∧ username (note_author n) ≠ username (mr_author m)
        ∧ should_track_user cfg (username (mr_author m)) = true
        ∧ get_slack_user_id cfg (username (mr_author m)) = Some (channel post)
        ∧ (kind post = FollowUp
           ↔ followup_marked (note_key n) st
               (check_note cfg clock p m ct d n st).1)
        ∧ text post
          = format_comment_notification cfg p m n
              (bool_decide (kind post = FollowUp)).
Proof.
  pose proof (check_note_effect cfg clock p m ct d n st) as Heff.
  destruct Heff as (_ & _ & _ & _ & Hkey).
  destruct (system n) eqn:Hsys; simpl in Hkey.
  { destruct Hkey as [_ ->]. exists []. rewrite app_nil_r.
    split_and!; [done|simpl; lia|]. by intros post ?%elem_of_nil. }
  destruct (should_track_user cfg (username (note_author n))) eqn:Htrack;
    simpl in Hkey.
  2:{ destruct Hkey as [_ ->]. exists []. rewrite app_nil_r.
      split_and!; [done|simpl; lia|]. by intros post ?%elem_of_nil. }
  pose proof (followup_marked_iff cfg clock p m ct d n st Hsys Htrack) as Hmark.
  destruct Hkey as (r' & rposts & cposts & Hr' & Hsl & _ & _ & Hresp & Hc).
  exists (rposts ++ cposts)%list.
  assert (filter (λ post, kind post ≠ Response) rposts = []) as Hnone.
  { destruct Hresp as [(_ & _ & -> & _)|(_ & pre & x & post & _ & _ & _ & _ & _ & ->)];
      [done|].
    unfold response_posts. destruct (_ && _); [|done].
    by rewrite filter_cons_False by (simpl; by intros ?). }
  split_and!; [done|..].
  - rewrite filter_app, Hnone. simpl. etrans; [apply length_filter|].
    rewrite Hc. destruct (check_note _ _ _ _ _ _ _ _).2; [simpl; lia|].
    unfold comment_posts. destruct (_ && _); simpl; lia.
  - intros post Hin Hkind. apply elem_of_app in Hin as [Hin|Hin].
    { assert (post ∈ filter (λ post, kind post ≠ Response) rposts) as Hin'
        by (by apply list_elem_of_filter).
      rewrite Hnone in Hin'. by apply elem_of_nil in Hin'. }
    rewrite Hc in Hin. destruct (check_note _ _ _ _ _ _ _ _).2;
      [by apply elem_of_nil in Hin|].
    apply in_comment_posts in Hin as (Hk & Hab & Hwhy & Hne & Hmr & Hid & Htext).
    set (needs := overdue _ _) in *.
    split_and!; try done.
    + destruct needs eqn:Hneeds.
      * right. by apply Hmark.
      * left. rewrite orb_false_r in Hwhy.
        by apply bool_decide_eq_true in Hwhy.
    + rewrite Hmark. rewrite Hk. by destruct needs.
    + rewrite Htext, Hk. by destruct needs.
Qed.

(** Scenario A: a fresh comment, seen 25 minutes after it was written. *)
Example new_comment_sent :
  Scenario.kinds
    (check_for_new_comments Scenario.cfg_all Scenario.clock
       (Scenario.poll [Scenario.mk_note 1 false "reviewer1" "2023-04-02T15:05:45"])
       (init ∅))
  = [(NewComment, "U1")].
Proof. vm_compute. reflexivity. Qed.

(** A comment first seen when it is already 25 hours old: one message, the
    follow-up. *)
Example new_and_overdue_sends_followup :
  Scenario.kinds
    (check_for_new_comments Scenario.cfg_all Scenario.clock
       (Scenario.poll [Scenario.comment]) (init ∅))
  = [(FollowUp, "U1")].
Proof. vm_compute. reflexivity. Qed.


(** ** The user filter *)

(** C3. A note whose author does not pass the user filter leaves the
    ledger, the messages and the ledger file as they are.  Yet when a
    tracked note is processed without an exception and its thread holds a
    note that counts as a response, the record ends up responded whether or
    not the author of that note passes the filter; if the record was not
    responded before and that note is the first of the thread to count, its
    author is the responder. *)
Theorem untracked_author (cfg : config) (clock : nat → Datetime.datetime) :
  (∀ p m ct d n st,
     should_track_user cfg (username (note_author n)) = false →
     tracked_comments (check_note cfg clock p m ct d n st).1
       = tracked_comments st
     ∧ slack (check_note cfg clock p m ct d n st).1 = slack st
     ∧ db_file (check_note cfg clock p m ct d n st).1 = db_file st)
  ∧ (∀ p m ct d n x st,
       system n = false →
       should_track_user cfg (username (note_author n)) = true →
       should_track_user cfg (username (note_author x)) = false →
       x ∈ notes d → is_response n x = true →
       (check_note cfg clock p m ct d n st).2 = inr () →
       ∃ r', tracked_comments (check_note cfg clock p m ct d n st).1
               !! note_key n = Some r'
             ∧ responded r' = true
             ∧ (¬ is_responded (tracked_comments st) (note_key n) →
                ∀ pre post,
                  notes d = (pre ++ x :: post)%list →
                  Forall (λ y, is_response n y = false) pre →
                  responder r' = Some (username (note_author x)))).
Proof.
  split.
  - intros p m ct d n st Hno.
    pose proof (check_note_effect cfg clock p m ct d n st) as Heff.
    destruct Heff as (_ & Hdb & _ & _ & Hkey).
    rewrite Hno, orb_true_r in Hkey. by destruct Hkey.
  - intros p m ct d n x st Hsys Htrack _ Hin Hx Hok.
    pose proof (check_note_effect cfg clock p m ct d n st) as Heff.
    destruct Heff as (_ & _ & _ & _ & Hkey).
    rewrite Hsys, Htrack in Hkey. simpl in Hkey.
    destruct Hkey as (r' & rposts & cposts & Hr' & _ & _ & _ & Hresp & _).
    exists r'. split; [done|].
    destruct Hresp as [(Heq & _ & _ & Hall)|(Hr0 & pre & x' & post & Hd & Hpre & Hx' & Hyes & Hwho & _)].
    + destruct (responded (default _ (tracked_comments st !! note_key n)))
        eqn:Hr0.
      * split; [congruence|]. intros Hnot. destruct Hnot.
        destruct (tracked_comments st !! note_key n) as [r|] eqn:Hr;
          simpl in Hr0; [|done].
        by exists r.
      * specialize (Hall Hok eq_refl). rewrite Forall_forall in Hall.
        apply Hall in Hin. congruence.
    + split; [done|]. intros _ pre0 post0 Hd0 Hpre0.
      rewrite Hd in Hd0.
      by rewrite Hwho, (first_response_unique n _ _ _ _ _ _ Hd0 Hpre Hx' Hpre0 Hx).
Qed.

(** Only [reviewer1] is tracked; [author1], who is not, answers the comment:
    the answer creates no record and marks the comment responded. *)
Lemma untracked_author_witness :
  tracked_comments
    (check_note Scenario.cfg_reviewer Scenario.clock Scenario.project0
       Scenario.mr0 Scenario.now_text
       (Scenario.thread [Scenario.comment; Scenario.answer]) Scenario.answer
       (init Scenario.seen)).1 = tracked_comments (init Scenario.seen)
  ∧ ∃ r', tracked_comments
            (check_note Scenario.cfg_reviewer Scenario.clock Scenario.project0
               Scenario.mr0 Scenario.now_text
               (Scenario.thread [Scenario.comment; Scenario.answer])
               Scenario.comment (init Scenario.seen)).1 !! "456789" = Some r'
          ∧ responded r' = true ∧ responder r' = Some "author1".
Proof.
  split.
  - apply (proj1 (untracked_author Scenario.cfg_reviewer Scenario.clock)).
    reflexivity.
  - destruct (proj2 (untracked_author Scenario.cfg_reviewer Scenario.clock)
                Scenario.project0 Scenario.mr0 Scenario.now_text
                (Scenario.thread [Scenario.comment; Scenario.answer])
                Scenario.comment Scenario.answer (init Scenario.seen))
      as (r' & Hr' & Hyes & Hwho).
    + reflexivity.
    + reflexivity.
    + reflexivity.
    + simpl. right. left.
    + vm_compute. reflexivity.
    + vm_compute. reflexivity.
    + exists r'. split_and!; [exact Hr'|exact Hyes|].
      apply (Hwho ltac:(by intros (r & [= <-] & ?)) [Scenario.comment] []);
        [reflexivity|].
      constructor; [vm_compute; reflexivity|constructor].
Defined.


(** ** The follow-up reminder *)

(** C1, on the timestamp of the README's example.  The comment carries
    [2023-04-01T14:30:45Z]; it is polled 25 hours later, unanswered, three
    times.  [check_followup] parses the timestamp to an offset-aware
    [datetime] and subtracts it from the naive [datetime.now()]: each cycle
    ends in [TypeError], [followup_sent] stays false and nothing is posted. *)
Theorem followup_fails_on_utc_timestamp :
  let out := check_for_new_comments Scenario.cfg_all Scenario.clock
               (Scenario.poll [Scenario.comment_utc]) (init ∅) in
  let later := run Scenario.cfg_all Scenario.clock
                 [Scenario.poll [Scenario.comment_utc];
                  Scenario.poll [Scenario.comment_utc];
                  Scenario.poll [Scenario.comment_utc]] (init ∅) in
  out.2 = inl TypeError
  ∧ followup_sent <$> Scenario.record_of "456789" out = Some false
  ∧ slack out.1 = []
  ∧ followup_sent <$> Scenario.record_of "456789" later = Some false
  ∧ slack later.1 = [].
Proof. vm_compute. done. Qed.

(** The same comment with the timestamp written without [Z]: the flag is
    set and one follow-up is posted, once. *)
Example followup_on_naive_timestamp :
  let later := run Scenario.cfg_all Scenario.clock
                 [Scenario.poll [Scenario.comment];
                  Scenario.poll [Scenario.comment];
                  Scenario.poll [Scenario.comment]] (init Scenario.seen) in
  followup_sent <$> Scenario.record_of "456789" later = Some true
  ∧ Scenario.kinds later = [(FollowUp, "U1")].
Proof. vm_compute. done. Qed.

(** ** Timestamps that do not parse *)












(** ** The reviewer set *)

Section Reviewers.

Context (cfg : config) (clock : nat → Datetime.datetime).

Lemma with_reviewers_id st : with_reviewers (reviewers st) st = st.
Proof. by destruct st. Qed.

Lemma with_reviewers_twice rv rv' st :
  with_reviewers rv (with_reviewers rv' st) = with_reviewers rv st.
Proof. by destruct st. Qed.

Lemma blind_reviewers {A} I (m : M A) st :
  blind I m → I (reviewers st) → reviewers (m st).1 = reviewers st.
Proof.
  intros Hm HI. specialize (Hm st (reviewers st) HI HI).
  rewrite with_reviewers_id in Hm.
  destruct (m st) as [st' r]. simpl in *. injection Hm as Hst.
  rewrite Hst at 1. done.
Qed.

Lemma blind_ret {A} I (a : A) : blind I (mret a : M A).
Proof. by intros st rv _ _. Qed.

Lemma blind_raise {A} I e : blind I (raise e : M A).
Proof. by intros st rv _ _. Qed.

Lemma blind_bind {A B} I (m : M A) (f : A → M B) :
  blind I m → (∀ a, blind I (f a)) → blind I (m ≫= f).
Proof.
  intros Hm Hf st rv HI Hrv. rewrite !bind_run, (Hm st rv HI Hrv).
  pose proof (blind_reviewers I m st Hm HI) as Hsame.
  destruct (m st) as [st1 [e|a]]; simpl in *; [done|].
  apply Hf; [by rewrite Hsame|done].
Qed.

Lemma blind_for_each {A} I (body : A → M unit) l :
  (∀ x, blind I (body x)) → blind I (for_each body l).
Proof.
  intros Hbody. induction l as [|x l IH]; [apply blind_ret|].
  change (for_each body (x :: l)) with (body x ≫= λ _, for_each body l).
  by apply blind_bind.
Qed.

Lemma blind_track_new I p m n ct : blind I (track_new p m n ct).
Proof.
  intros st rv _ _. rewrite !track_new_run. destruct st as [tc db sl rv0 ck].
  simpl. by destruct (tc !! note_key n).
Qed.

Lemma blind_check_followup I n : blind I (check_followup clock n).
Proof.
  intros st rv _ _. destruct st as [tc db sl rv0 ck].
  unfold check_followup. rewrite !bind_run. simpl.
  destruct (tc !! note_key n) as [r|]; [|done].
  destruct (negb (responded r) && negb (followup_sent r)); [|done].
  unfold parse_timestamp. rewrite !bind_run.
  destruct (Datetime.fromisoformat _) as [c|]; [|done]. simpl.
  rewrite !bind_run. simpl. unfold datetime_sub. rewrite !bind_run.
  destruct (Datetime.sub _ c) as [age|]; [|done]. simpl.
  by destruct (_ <? age).
Qed.

Lemma blind_notify I p m n is_new needs :
  blind I (notify_mr_author cfg p m n is_new needs).
Proof.
  intros st rv _ _. rewrite !notify_mr_author_run. by destruct st.
Qed.

(** The response loop looks at [reviewers] only when [x] is by the author
    of the merge request and [n] by somebody else; the author of [n] is
    then in [reviewers], having been added when [n] came up. *)
Lemma blind_check_response p m n x :
  blind (λ rv, username (note_author n) ≠ username (mr_author m) →
               username (note_author n) ∈ rv)
    (check_response cfg p m n x).
Proof.
  intros st rv HI Hrv. destruct st as [tc db sl rv0 ck]. simpl in HI.
  unfold check_response.
  destruct (system x); [done|].
  unfold parse_timestamp. rewrite !bind_run.
  destruct (Datetime.fromisoformat (replace_Z (note_created_at x))) as [tx|];
    [|done]. simpl. rewrite !bind_run.
  destruct (Datetime.fromisoformat (replace_Z (note_created_at n))) as [tn|];
    [|done]. simpl. rewrite !bind_run.
  destruct (bool_decide (username (note_author x) ≠ username (note_author n)))
    eqn:Hne; simpl.
  2:{ rewrite !bind_run. simpl. by destruct (tc !! note_key n). }
  apply bool_decide_eq_true in Hne.
  unfold datetime_gt. destruct (Datetime.gt tx tn) as [later|]; [|done]. simpl.
  rewrite !bind_run. simpl.
  destruct (tc !! note_key n) as [r|]; [|done].
  destruct (later && negb (responded r)); [|done].
  rewrite !bind_run. simpl.
  destruct (bool_decide (username (note_author x) = username (mr_author m)))
    eqn:Hx; simpl; [|done].
  apply bool_decide_eq_true in Hx.
  rewrite !bool_decide_eq_true_2 by (apply HI || apply Hrv; congruence).
  simpl. destruct (should_track_user cfg _); [|done]. simpl.
  unfold send_slack_message. by destruct (truthy _).
Qed.

Lemma loose_check_note p m ct d n : loose (check_note cfg clock p m ct d n).
Proof.
  intros st rv. unfold check_note.
  destruct (system n); [by exists rv|].
  set (I := λ rv : gset string,
         username (note_author n) ≠ username (mr_author m) →
         username (note_author n) ∈ rv).
  set (rest := if negb (should_track_user cfg (username (note_author n)))
               then mret ()
               else is_new ← track_new p m n ct;
                    needs ← check_followup clock n;
                    for_each (check_response cfg p m n) (notes d);;
                    notify_mr_author cfg p m n is_new needs).
  assert (blind I rest) as Hrest.
  { unfold rest. destruct (negb _); [apply blind_ret|].
    apply blind_bind; [apply blind_track_new|]. intros is_new.
    apply blind_bind; [apply blind_check_followup|]. intros needs.
    apply blind_bind; [|intros _; apply blind_notify].
    apply blind_for_each. intros x. apply blind_check_response. }
  rewrite !bind_run.
  destruct (bool_decide (username (note_author n) ≠ username (mr_author m)))
    eqn:Hne; simpl.
  - exists (rv ∪ {[ username (note_author n) ]}).
    change (set_reviewers (λ s, s ∪ {[username (note_author n)]})
              (with_reviewers rv st))
      with (with_reviewers (rv ∪ {[ username (note_author n) ]})
              (set_reviewers (λ s, s ∪ {[username (note_author n)]}) st)).
    apply Hrest; intros _; simpl; by apply elem_of_union_r, elem_of_singleton.
  - exists rv. apply bool_decide_eq_false in Hne.
    apply Hrest; by intros ?.
Qed.

Lemma loose_for_each {A} (body : A → M unit) l :
  (∀ x, loose (body x)) → loose (for_each body l).
Proof.
  intros Hbody. induction l as [|x l IH]; intros st rv; [by exists rv|].
  rewrite !for_each_cons. destruct (Hbody x st rv) as [rv1 ->].
  destruct (body x st) as [st1 [e|[]]]; simpl; [by exists rv1|].
  apply IH.
Qed.

Lemma loose_check_discussions p m ct ds :
  loose (check_discussions cfg clock p m ct ds).
Proof.
  unfold check_discussions. apply loose_for_each. intros d.
  apply loose_for_each. intros n. apply loose_check_note.
Qed.

End Reviewers.


(** C7, as the code has it.  Each note that is not a system note adds its
    author to [reviewers] when it comes up, unless it is the author of the
    merge request; nothing else changes the set during a scan.  The outcome
    does not depend on it: [check_merge_request] leaves the same ledger, file,
    messages and clock, and ends the same way, as the variant that builds
    the whole reviewer set before it looks at any note. *)
Theorem reviewers_grow_during_scan (cfg : config)
    (clock : nat → Datetime.datetime) :
  (∀ p m ct d n st,
     reviewers (check_note cfg clock p m ct d n st).1
     = if negb (system n)
          && bool_decide (username (note_author n) ≠ username (mr_author m))
       then reviewers st ∪ {[ username (note_author n) ]}
       else reviewers st)
  ∧ (∀ p ct md st,
       same_but_reviewers
         (check_merge_request cfg clock p ct md st).1
         (check_merge_request_precomputed cfg clock p ct md st).1
       ∧ (check_merge_request cfg clock p ct md st).2
         = (check_merge_request_precomputed cfg clock p ct md st).2).
Proof.
  split.
  - intros p m ct d n st.
    by destruct (check_note_effect cfg clock p m ct d n st) as (Hrv & _).
  - intros p ct md st.
    unfold check_merge_request, check_merge_request_precomputed.
    destruct (details md) as [declared|]; [|by repeat split].
    rewrite !bind_run. simpl.
    set (rv1 := list_to_set (username <$> declared)).
    set (rv2 := all_reviewers (mr md) declared (discussions md)).
    change (set_reviewers (λ _, rv2) st)
      with (with_reviewers rv2 (set_reviewers (λ _, rv1) st)).
    rewrite !bind_run.
    destruct (loose_check_discussions cfg clock p (mr md) ct (discussions md)
                (set_reviewers (λ _, rv1) st) rv2) as [rv' ->].
    destruct (check_discussions _ _ _ _ _ _ _) as [st1 [e|[]]]; simpl;
      by repeat split.
Qed.

(** C7 fails as stated.  [reviewer1] comments, [author1] answers in the same
    thread and [reviewer2] comments in a second thread.  Processing the first
    note posts the "author responded" message; [reviewers] then holds
    [reviewer1] and not [reviewer2], who is in the set of all note authors.
    The last equation says that [st1] is the tracker that
    [check_merge_request] goes through at that point. *)
Lemma reviewers_incomplete_at_decision :
  let ds := [Scenario.thread [Scenario.early; Scenario.late];
             Scenario.thread [Scenario.other_comment]] in
  let st1 := (check_note Scenario.cfg_all Scenario.clock Scenario.project0
                Scenario.mr0 Scenario.now_text
                (Scenario.thread [Scenario.early; Scenario.late])
                Scenario.early
                (set_reviewers (λ _, list_to_set (username <$> [])) (init ∅))).1 in
  (kind <$> slack st1) = [Response; NewComment]
  ∧ elements (reviewers st1) = ["reviewer1"]
  ∧ bool_decide ("reviewer2" ∈ all_reviewers Scenario.mr0 [] ds) = true
  ∧ (check_merge_request Scenario.cfg_all Scenario.clock Scenario.project0
       Scenario.now_text
       {| mr := Scenario.mr0; details := Some []; discussions := ds |}
       (init ∅))
    = (for_each
         (check_note Scenario.cfg_all Scenario.clock Scenario.project0
            Scenario.mr0 Scenario.now_text
            (Scenario.thread [Scenario.early; Scenario.late]))
         [Scenario.late];;
       check_discussions Scenario.cfg_all Scenario.clock Scenario.project0
         Scenario.mr0 Scenario.now_text
         [Scenario.thread [Scenario.other_comment]];;
       save_tracked_comments) st1.
Proof. vm_compute. done. Qed.


(** * Further properties *)

(** ** When the reminder flag is set *)

(** Processing a note that is not a system note and whose author is tracked
    sets the [followup_sent] flag of its record exactly when the record (the
    new one, for a note absent from the ledger) is unanswered, has had no
    reminder, and [datetime.now() - created_at] is defined and exceeds 24
    hours. *)
Theorem followup_set_iff_overdue (cfg : config)
    (clock : nat → Datetime.datetime) (p : project) (m : merge_request)
    (ct : string) (d : discussion) (n : note) (st : tracker) :
  system n = false →
  should_track_user cfg (username (note_author n)) = true →
  followup_marked (note_key n) st (check_note cfg clock p m ct d n st).1
  ↔ overdue (naive (clock (clock_reads st)))
      (default (new_record p m n ct) (tracked_comments st !! note_key n))
    = true.
Proof. apply followup_marked_iff. Qed.

(** The comment of the examples, 25 hours old and unanswered: the flag is
    set. *)
Lemma followup_set_iff_overdue_witness :
  followup_marked "456789" (init Scenario.seen)
    (check_note Scenario.cfg_all Scenario.clock Scenario.project0 Scenario.mr0
       Scenario.now_text (Scenario.thread [Scenario.comment]) Scenario.comment
       (init Scenario.seen)).1.
Proof.
  apply (followup_set_iff_overdue Scenario.cfg_all Scenario.clock
           Scenario.project0 Scenario.mr0 Scenario.now_text
           (Scenario.thread [Scenario.comment]) Scenario.comment
           (init Scenario.seen)).
  - reflexivity.
  - reflexivity.
  - vm_compute. reflexivity.
Defined.

(** ** One message of each kind per comment *)

Lemma posts_of_app w k l1 l2 :
  posts_of w k (l1 ++ l2) = (posts_of w k l1 + posts_of w k l2)%nat.
Proof. unfold posts_of. by rewrite filter_app, length_app. Qed.

Lemma posts_of_nil w k : posts_of w k [] = 0%nat.
Proof. done. Qed.

Lemma occasion_past_evolves w st st' k :
  evolves st st' →
  occasion_past w (tracked_comments st) k →
  occasion_past w (tracked_comments st') k.
Proof.
  intros (Hrec & _) Hpast. destruct w; simpl in *.
  - destruct Hpast as [r Hr]. destruct (Hrec k r Hr) as (r' & Hr' & _). by exists r'.
  - destruct Hpast as (r & Hr & Hf).
    destruct (Hrec k r Hr) as (r' & Hr' & _ & _ & Hfu & _). exists r'. auto.
  - destruct Hpast as (r & Hr & Hy).
    destruct (Hrec k r Hr) as (r' & Hr' & _ & Hre & _). exists r'. auto.
Qed.

Lemma once_each_preorder : PreOrder once_each.
Proof.
  split.
  - intros st. split; [reflexivity|]. exists []. rewrite app_nil_r.
    split; [done|]. intros w k. rewrite posts_of_nil. split; [lia|done].
  - intros st1 st2 st3 [He12 (new12 & Hsl12 & Hn12)] [He23 (new23 & Hsl23 & Hn23)].
    split; [by etrans|]. exists (new12 ++ new23)%list. split.
    { by rewrite Hsl23, Hsl12, app_assoc. }
    intros w k. rewrite posts_of_app.
    destruct (Hn12 w k) as [Hle12 Hone12], (Hn23 w k) as [Hle23 Hone23].
    destruct (decide (posts_of w k new12 = 1%nat)) as [H1|H1].
    + destruct (Hone12 H1) as [Hnot Hyes].
      assert (posts_of w k new23 = 0%nat) as H0.
      { destruct (decide (posts_of w k new23 = 1%nat)) as [H2|H2]; [|lia].
        by destruct (Hone23 H2) as [Hnot' _]. }
      split; [lia|]. intros _. split; [done|].
      by eapply occasion_past_evolves.
    + assert (posts_of w k new12 = 0%nat) as H0 by lia.
      split; [lia|]. intros Hone. destruct Hone23 as [Hnot Hyes]; [lia|].
      split; [|done]. intros Hpast. apply Hnot.
      by eapply occasion_past_evolves.
Qed.

#[global] Existing Instance once_each_preorder.

Lemma once_each_housekeeping : Housekeeping once_each.
Proof.
  assert (∀ st st', slack st' = slack st → tracked_comments st' = tracked_comments st →
            evolves st st' → once_each st st') as Hquiet.
  { intros st st' Hsl Htc He. split; [done|]. exists []. rewrite app_nil_r.
    split; [done|]. intros w k. rewrite posts_of_nil. split; [lia|done]. }
  split.
  - intros f st. apply Hquiet; [done..|apply keeps_reviewers].
  - intros n st. apply Hquiet; [done..|apply keeps_clock].
  - intros st. apply Hquiet; [done..|apply keeps_save].
Qed.

#[global] Existing Instance once_each_housekeeping.

Lemma posts_of_response_posts cfg w k p m n x rv :
  (posts_of w k (response_posts cfg p m n x rv) ≤ 1)%nat
  ∧ (posts_of w k (response_posts cfg p m n x rv) = 1%nat →
     w = Response ∧ k = note_key n).
Proof.
  unfold response_posts, posts_of.
  destruct (_ && _); [|simpl; split; [lia|done]].
  destruct (decide (Response = w ∧ note_key n = k)) as [[<- <-]|Hne].
  - rewrite filter_cons_True by done. simpl. split; [lia|done].
  - rewrite filter_cons_False by done. simpl. split; [lia|done].
Qed.

Lemma posts_of_comment_posts cfg w k p m n is_new needs :
  (posts_of w k (comment_posts cfg p m n is_new needs) ≤ 1)%nat
  ∧ (posts_of w k (comment_posts cfg p m n is_new needs) = 1%nat →
     w = (if needs then FollowUp else NewComment) ∧ k = note_key n
     ∧ is_new || needs = true).
Proof.
  unfold comment_posts, posts_of.
  destruct (is_new || needs); simpl; [|split; [lia|done]].
  destruct (_ && _); [|simpl; split; [lia|done]].
  destruct (decide ((if needs then FollowUp else NewComment) = w ∧ note_key n = k))
    as [[<- <-]|Hne].
  - rewrite filter_cons_True by done. simpl. split; [lia|done].
  - rewrite filter_cons_False by done. simpl. split; [lia|done].
Qed.

Lemma check_note_once_each cfg clock p m ct d n st :
  once_each st (check_note cfg clock p m ct d n st).1.
Proof.
  split; [apply check_note_evolves|].
  pose proof (check_note_effect cfg clock p m ct d n st) as Heff.
  destruct (check_note cfg clock p m ct d n st) as [st' res]. simpl in *.
  destruct Heff as (_ & _ & _ & _ & Hkey).
  destruct (system n || negb (should_track_user cfg _)).
  { destruct Hkey as [_ ->]. exists []. rewrite app_nil_r. split; [done|].
    intros w k. rewrite posts_of_nil. split; [lia|done]. }
  destruct Hkey as (r' & rposts & cposts & Hr' & Hsl & Hcr & Hfu & Hresp & Hc).
  exists (rposts ++ cposts)%list. split; [done|]. intros w k.
  rewrite posts_of_app.
  set (r0 := default _ (tracked_comments st !! note_key n)) in *.
  set (needs := overdue _ r0) in *.
  set (is_new := bool_decide _) in *.
  assert ((posts_of w k rposts ≤ 1)%nat
          ∧ (posts_of w k rposts = 1%nat →
             w = Response ∧ k = note_key n ∧ responded r0 = false
             ∧ responded r' = true)) as [Hrle Hrone].
  { destruct Hresp as [(_ & _ & -> & _)|(Hr0 & pre & x & post & _ & _ & _ & Hyes & _ & ->)].
    - rewrite posts_of_nil. split; [lia|done].
    - destruct (posts_of_response_posts cfg w k p m n x (reviewers st')) as [Hle Hone].
      split; [done|]. intros H1. destruct (Hone H1) as [-> ->]. done. }
  assert ((posts_of w k cposts ≤ 1)%nat
          ∧ (posts_of w k cposts = 1%nat →
             w = (if needs then FollowUp else NewComment) ∧ k = note_key n
             ∧ is_new || needs = true)) as [Hcle Hcone].
  { rewrite Hc. destruct res; [rewrite posts_of_nil; split; [lia|done]|].
    apply posts_of_comment_posts. }
  destruct (decide (posts_of w k rposts = 1%nat)) as [H1|H1].
  - destruct (Hrone H1) as (-> & -> & Hr0 & Hyes).
    assert (posts_of Response (note_key n) cposts = 0%nat) as ->.
    { destruct (decide (posts_of Response (note_key n) cposts = 1%nat)) as [H2|H2];
        [|lia].
      destruct (Hcone H2) as (Hw & _). by destruct needs. }
    split; [lia|]. intros _. split; [|by exists r'].
    intros (r & Hr & Hy). unfold r0 in Hr0. rewrite Hr in Hr0. simpl in Hr0.
    congruence.
  - assert (posts_of w k rposts = 0%nat) as -> by lia. simpl.
    split; [done|]. intros H2. destruct (Hcone H2) as (-> & -> & Hwhy).
    destruct needs eqn:Hneeds; simpl.
    + split; [|exists r'; split; [done|by rewrite Hfu, orb_true_r]].
      intros (r & Hr & Hf). apply overdue_unsent in Hneeds.
      unfold r0 in Hneeds. rewrite Hr in Hneeds. simpl in Hneeds. congruence.
    + split; [|by exists r'].
      rewrite orb_false_r in Hwhy. apply bool_decide_eq_true in Hwhy.
      rewrite Hwhy. by intros [? ?].
Qed.

Lemma run_once_each cfg clock polls st : once_each st (run cfg clock polls st).1.
Proof. apply (run_keeps cfg clock once_each). intros. apply check_note_once_each. Qed.

(** From [__init__] on, a run posts at most one message of each kind about a
    comment: one "new comment", one follow-up, one "author responded".  No
    "new comment" is posted about a comment the ledger file already held,
    and no follow-up or response about one the file held as reminded or as
    responded. *)
Theorem one_message_of_each_kind (cfg : config)
    (clock : nat → Datetime.datetime)
    (polls : list (list project_data)) (file : gmap string comment_record)
    (w : notice) (k : string) :
  (posts_of w k (slack (run cfg clock polls (init file)).1) ≤ 1)%nat
  ∧ (occasion_past w file k →
     posts_of w k (slack (run cfg clock polls (init file)).1) = 0%nat).
Proof.
  destruct (run_once_each cfg clock polls (init file)) as [_ (new & Hsl & Hnew)].
  rewrite Hsl. simpl. destruct (Hnew w k) as [Hle Hone]. split; [done|].
  intros Hpast.
  destruct (decide (posts_of w k new = 1%nat)) as [H1|H1]; [|lia].
  by destruct (Hone H1) as [Hnot _].
Qed.

(** The comment is already in the file: four polls later it has been
    followed up and answered, and never announced as new. *)
Lemma one_message_of_each_kind_witness :
  posts_of NewComment "456789"
    (slack (run Scenario.cfg_all Scenario.clock
              [Scenario.poll [Scenario.comment];
               Scenario.poll [Scenario.comment];
               Scenario.poll [Scenario.comment; Scenario.answer];
               Scenario.poll [Scenario.comment; Scenario.answer]]
              (init Scenario.seen)).1) = 0%nat.
Proof.
  apply (one_message_of_each_kind Scenario.cfg_all Scenario.clock).
  simpl. by eexists.
Defined.


(** ** A responded record is final *)

Lemma comment_record_eq (r r' : comment_record) :
  same_creation r r' → responded r' = responded r →
  followup_sent r' = followup_sent r → responder r' = responder r → r' = r.
Proof.
  destruct r, r'. intros (? & ? & ? & ? & ?) ? ? ?. simpl in *. congruence.
Qed.

Lemma final_preorder k : PreOrder (final k).
Proof.
  split.
  - by intros st r Hr Hy.
  - intros st1 st2 st3 H12 H23 r Hr Hy.
    destruct (H12 r Hr Hy) as [Hr2 Hp2]. destruct (H23 r Hr2 Hy) as [Hr3 Hp3].
    split; congruence.
Qed.

#[global] Existing Instance final_preorder.

Lemma final_housekeeping k : Housekeeping (final k).
Proof.
  split; [intros f st r Hr Hy|intros n st r Hr Hy|intros st r Hr Hy]; by split.
Qed.

#[global] Existing Instance final_housekeeping.

Lemma overdue_responded now r : responded r = true → overdue now r = false.
Proof. unfold overdue. by intros ->. Qed.

Lemma check_note_final cfg clock k p m ct d n st :
  final k st (check_note cfg clock p m ct d n st).1.
Proof.
  intros r Hr Hy.
  destruct (decide (system n = false → note_key n ≠ k)) as [Hne|Heq].
  { destruct (check_note_untouched cfg clock k p m ct d n st Hne) as [Htc Hposts].
    split; congruence. }
  assert (system n = false ∧ note_key n = k) as [Hsys <-].
  { destruct (system n); [by destruct Heq|].
    split; [done|]. destruct (decide (note_key n = k)); [done|]. by destruct Heq. }
  pose proof (check_note_effect cfg clock p m ct d n st) as Heff.
  destruct (check_note cfg clock p m ct d n st) as [st' res]. simpl in *.
  destruct Heff as (_ & _ & _ & _ & Hkey).
  rewrite Hsys in Hkey. simpl in Hkey.
  destruct (negb (should_track_user cfg _)).
  { destruct Hkey as [-> ->]. by split. }
  destruct Hkey as (r' & rposts & cposts & Hr' & Hsl & Hcr & Hfu & Hresp & Hc).
  rewrite Hr in Hcr, Hfu, Hresp, Hc. simpl in Hcr, Hfu, Hresp, Hc.
  rewrite (overdue_responded _ r Hy) in Hfu, Hc. rewrite orb_false_r in Hfu.
  destruct Hresp as [(Hsame & Hwho & -> & _)|(Hno & _)]; [|congruence].
  assert (cposts = []) as ->.
  { rewrite Hc. destruct res; [done|].
    unfold comment_posts. reflexivity. }
  rewrite Hsl, !app_nil_r. split; [|done].
  by rewrite Hr', (comment_record_eq r r').
Qed.

(** Once a record is responded, nothing changes it and nothing is posted
    about its comment, over any run: no reminder in particular, however old
    the comment gets. *)
Theorem responded_record_is_final (cfg : config)
    (clock : nat → Datetime.datetime)
    (polls : list (list project_data)) (st : tracker) (k : string)
    (r : comment_record) :
  tracked_comments st !! k = Some r → responded r = true →
  tracked_comments (run cfg clock polls st).1 !! k = Some r
  ∧ posts_about k (slack (run cfg clock polls st).1) = posts_about k (slack st).
Proof.
  intros Hr Hy.
  assert (final k st (run cfg clock polls st).1) as Hfinal.
  { apply (run_keeps cfg clock (final k)). intros. apply check_note_final. }
  by apply Hfinal.
Qed.

(** The comment of the examples is in the ledger as answered by
    [author1]; three polls later, 25 hours old, its record is the same and
    nothing was posted about it. *)
Lemma responded_record_is_final_witness :
  posts_about "456789"
    (slack (run Scenario.cfg_all Scenario.clock
              [Scenario.poll [Scenario.comment; Scenario.answer];
               Scenario.poll [Scenario.comment; Scenario.answer;
                              Scenario.second_answer];
               Scenario.poll [Scenario.comment]]
              (init (set_responded "author1" <$> Scenario.seen))).1)
  = [].
Proof.
  apply (responded_record_is_final Scenario.cfg_all Scenario.clock _
           (init (set_responded "author1" <$> Scenario.seen)) "456789"
           (set_responded "author1"
              {| rec_project_id := 12345; rec_mr_iid := 123;
                 rec_author := "reviewer1";
                 rec_created_at := "2023-04-01T14:30:45";
                 rec_notified_at := "2023-04-01T14:35:00";
                 responded := false; followup_sent := false;
                 responder := None |})).
  - vm_compute. reflexivity.
  - reflexivity.
Defined.


(** ** Who gets the messages *)

Lemma truthy_Some o : truthy o = true → ∃ c, o = Some c ∧ c ≠ "".
Proof.
  destruct o as [c|]; [|done]. simpl. intros Hc. exists c. split; [done|].
  intros ->. done.
Qed.

Lemma response_posts_to_tracked cfg p m n x rv :
  Forall (λ post, tracked_recipient cfg (channel post))
    (response_posts cfg p m n x rv).
Proof.
  unfold response_posts.
  destruct (bool_decide _ && bool_decide _); simpl; [|constructor].
  destruct (should_track_user cfg _) eqn:Htrack; simpl; [|constructor].
  destruct (truthy _) eqn:Hid; [|constructor].
  apply truthy_Some in Hid as (c & Hc & Hne).
  constructor; [|constructor]. simpl.
  rewrite Hc. simpl. by exists (username (note_author n)).
Qed.

Lemma comment_posts_to_tracked cfg p m n is_new needs :
  Forall (λ post, tracked_recipient cfg (channel post))
    (comment_posts cfg p m n is_new needs).
Proof.
  unfold comment_posts.
  destruct ((is_new || needs) && bool_decide _); simpl; [|constructor].
  destruct (should_track_user cfg _) eqn:Htrack; simpl; [|constructor].
  destruct (truthy _) eqn:Hid; [|constructor].
  apply truthy_Some in Hid as (c & Hc & Hne).
  constructor; [|constructor]. simpl.
  rewrite Hc. simpl. by exists (username (mr_author m)).
Qed.

Lemma posting_preorder P : PreOrder (posting P).
Proof.
  split.
  - intros st. exists []. by rewrite app_nil_r.
  - intros st1 st2 st3 (new12 & Hsl12 & H12) (new23 & Hsl23 & H23).
    exists (new12 ++ new23)%list. split; [by rewrite Hsl23, Hsl12, app_assoc|].
    by apply Forall_app.
Qed.

#[global] Existing Instance posting_preorder.

Lemma posting_housekeeping P : Housekeeping (posting P).
Proof.
  split; [intros f st|intros n st|intros st]; exists []; by rewrite app_nil_r.
Qed.

#[global] Existing Instance posting_housekeeping.

(** What holds of the messages of both kinds of posts holds of every message
    posted while a note is processed. *)
Lemma check_note_posting (P : slack_post → Prop) cfg clock p m ct d n st :
  (∀ x rv, Forall P (response_posts cfg p m n x rv)) →
  (∀ is_new needs, Forall P (comment_posts cfg p m n is_new needs)) →
  posting P st (check_note cfg clock p m ct d n st).1.
Proof.
  intros Hrp Hcp.
  pose proof (check_note_effect cfg clock p m ct d n st) as Heff.
  destruct (check_note cfg clock p m ct d n st) as [st' res]. simpl in *.
  destruct Heff as (_ & _ & _ & _ & Hkey).
  destruct (system n || negb (should_track_user cfg _)).
  { destruct Hkey as [_ Hsl]. exists []. by rewrite app_nil_r. }
  destruct Hkey as (r' & rposts & cposts & _ & Hsl & _ & _ & Hresp & Hc).
  exists (rposts ++ cposts)%list. split; [done|]. apply Forall_app. split.
  - destruct Hresp as [(_ & _ & -> & _)|(_ & pre & x & post & _ & _ & _ & _ & _ & ->)];
      [constructor|apply Hrp].
  - rewrite Hc. destruct res; [constructor|apply Hcp].
Qed.

Lemma run_posting (P : slack_post → Prop) cfg clock polls file :
  (∀ p m n x rv, Forall P (response_posts cfg p m n x rv)) →
  (∀ p m n is_new needs, Forall P (comment_posts cfg p m n is_new needs)) →
  Forall P (slack (run cfg clock polls (init file)).1).
Proof.
  intros Hrp Hcp.
  assert (posting P (init file) (run cfg clock polls (init file)).1)
    as (new & Hsl & Hnew).
  { apply (run_keeps cfg clock (posting P)). intros.
    by apply check_note_posting. }
  by rewrite Hsl.
Qed.

(** From [__init__] on, every message a run posts goes to the Slack
    identity, not empty, that [slack_user_map] gives for a user who passes
    the user filter: nobody outside a configured allowlist, and nobody
    without a mapping, is written to. *)
Theorem messages_go_to_tracked_users (cfg : config)
    (clock : nat → Datetime.datetime)
    (polls : list (list project_data)) (file : gmap string comment_record) :
  Forall (λ post, tracked_recipient cfg (channel post))
    (slack (run cfg clock polls (init file)).1).
Proof.
  apply run_posting; intros.
  - apply response_posts_to_tracked.
  - apply comment_posts_to_tracked.
Qed.

(** Only [reviewer1] is tracked: the answer of [author1] is reported to
    [reviewer1], and [author1] gets neither the new comment nor the
    reminder. *)
Example only_tracked_users_are_written_to :
  Scenario.kinds
    (run Scenario.cfg_reviewer Scenario.clock
       [Scenario.poll [Scenario.comment];
        Scenario.poll [Scenario.comment; Scenario.answer]] (init ∅))
  = [(Response, "U2")].
Proof. vm_compute. reflexivity. Qed.

(** ** When the ledger file is written *)

Lemma same_file_preorder : PreOrder same_file.
Proof.
  split; [by intros st|]. intros st1 st2 st3 H12 H23. unfold same_file in *.
  congruence.
Qed.

#[global] Existing Instance same_file_preorder.

Lemma check_note_same_file cfg clock p m ct d n st :
  same_file st (check_note cfg clock p m ct d n st).1.
Proof. by destruct (check_note_effect cfg clock p m ct d n st) as (_ & Hdb & _). Qed.

Lemma keeps_file_behind_preorder : PreOrder keeps_file_behind.
Proof.
  split.
  - intros st. split; [reflexivity|done].
  - intros st1 st2 st3 [He12 H12] [He23 H23]. split; [by etrans|auto].
Qed.

#[global] Existing Instance keeps_file_behind_preorder.

Lemma keeps_file_behind_housekeeping : Housekeeping keeps_file_behind.
Proof.
  split.
  - intros f st. split; [apply keeps_reviewers|done].
  - intros n st. split; [apply keeps_clock|done].
  - intros st. split; [apply keeps_save|]. intros _ k r Hr. simpl in *.
    exists r. split; [done|apply record_evolves_refl].
Qed.

#[global] Existing Instance keeps_file_behind_housekeeping.

Lemma check_note_keeps_file_behind cfg clock p m ct d n st :
  keeps_file_behind st (check_note cfg clock p m ct d n st).1.
Proof.
  pose proof (check_note_evolves cfg clock p m ct d n st) as Hev.
  split; [done|]. intros Hbehind k r Hr.
  rewrite (check_note_same_file cfg clock p m ct d n st) in Hr.
  destruct (Hbehind k r Hr) as (r1 & Hr1 & He1).
  destruct Hev as (Hrec & _). destruct (Hrec k r1 Hr1) as (r2 & Hr2 & He2).
  exists r2. split; [done|]. by eapply record_evolves_trans.
Qed.

(** The ledger file is written when a merge request has been processed to
    its end, and then holds the whole ledger; when the request is skipped
    (its details could not be fetched) or its processing raises, the file is
    left as it was, whatever was changed in memory.  From [__init__] on,
    every record of the file is an earlier state of the ledger's record
    under the same key: the file never holds what the ledger does not. *)
Theorem file_written_after_each_request (cfg : config)
    (clock : nat → Datetime.datetime) :
  (∀ p ct md st,
     match (check_merge_request cfg clock p ct md st).2, details md with
     | inr _, Some _ =>
         db_file (check_merge_request cfg clock p ct md st).1
         = tracked_comments (check_merge_request cfg clock p ct md st).1
     | _, _ =>
         db_file (check_merge_request cfg clock p ct md st).1 = db_file st
     end)
  ∧ (∀ polls file k r,
       db_file (run cfg clock polls (init file)).1 !! k = Some r →
       ∃ r', tracked_comments (run cfg clock polls (init file)).1 !! k = Some r'
             ∧ record_evolves r r').
Proof.
  split.
  - intros p ct md st. unfold check_merge_request.
    destruct (details md) as [declared|]; [|done].
    rewrite bind_run. simpl. rewrite bind_run.
    pose proof (check_discussions_keeps cfg clock same_file p (mr md) ct
                  (discussions md)
                  (λ d n st' _ _, check_note_same_file cfg clock p (mr md) ct d n st')
                  (set_reviewers (λ _, list_to_set (username <$> declared)) st))
      as Hsame.
    by destruct (check_discussions _ _ _ _ _ _ _) as [st1 [e|[]]].
  - intros polls file k r Hr.
    assert (keeps_file_behind (init file) (run cfg clock polls (init file)).1)
      as [_ Hbehind].
    { apply (run_keeps cfg clock keeps_file_behind). intros.
      apply check_note_keeps_file_behind. }
    apply Hbehind; [|done]. intros k' r' Hk'. simpl in *.
    exists r'. split; [done|apply record_evolves_refl].
Qed.

(** The thread holds a note whose timestamp does not parse: the comment is
    recorded in memory, the cycle raises, and the file stays empty. *)
Example record_kept_in_memory_only :
  let out := check_for_new_comments Scenario.cfg_all Scenario.clock
               (Scenario.poll [Scenario.early; Scenario.broken_note])
               (init ∅) in
  out.2 = inl ValueError
  ∧ is_Some (tracked_comments out.1 !! "456796") ∧ db_file out.1 = ∅
  ∧ slack out.1 = [].
Proof. vm_compute. split_and!; [done|by eexists|done..]. Qed.

(** ** The loop of [run] *)



(** ** What a message's text tells *)

Lemma kind_of_text_comment cfg p m n needs :
  kind_of_text (format_comment_notification cfg p m n needs)
  = Some (if needs then FollowUp else NewComment).
Proof. by destruct needs. Qed.

Lemma kind_of_text_response cfg p m who x :
  kind_of_text (format_response_notification cfg p m who x) = Some Response.
Proof. done. Qed.

(** From [__init__] on, the first words of every message posted tell which
    of the three templates made it: the follow-up, the "new comment" and the
    "author responded" texts are never mistaken for one another, whatever the
    project, title, names and body put into them. *)
Theorem texts_tell_kinds (cfg : config) (clock : nat → Datetime.datetime)
    (polls : list (list project_data)) (file : gmap string comment_record) :
  Forall (λ post, kind_of_text (text post) = Some (kind post))
    (slack (run cfg clock polls (init file)).1).
Proof.
  apply run_posting.
  - intros p m n x rv. unfold response_posts.
    destruct (_ && _); constructor; [apply kind_of_text_response|constructor].
  - intros p m n is_new needs. unfold comment_posts.
    destruct (_ && _); constructor; [apply kind_of_text_comment|constructor].
Qed.

(** ** Keys and links *)

(** Two notes with different ids have different ledger keys and, within a
    merge request, different links. *)
Theorem keys_and_links_injective (cfg : config) (p : project)
    (m : merge_request) (n1 n2 : note) :
  (note_key n1 = note_key n2 → note_id n1 = note_id n2)
  ∧ (note_url cfg p m n1 = note_url cfg p m n2 → note_id n1 = note_id n2).
Proof.
  split.
  - unfold note_key. by intros ?%(inj pretty).
  - unfold note_url. intros Heq.
    repeat apply (inj (String.app _)) in Heq. by apply (inj pretty) in Heq.
Qed.


(** ** Offset-aware timestamps *)

Lemma stuck_preorder : PreOrder stuck.
Proof.
  split.
  - by intros st H.
  - intros st1 st2 st3 H12 H23 H1.
    destruct (H12 H1) as [H2 Hs2]. destruct (H23 H2) as [H3 Hs3].
    split; [done|congruence].
Qed.

#[global] Existing Instance stuck_preorder.

Lemma stuck_housekeeping : Housekeeping stuck.
Proof. split; [intros f st H|intros n st H|intros st H]; by split. Qed.

#[global] Existing Instance stuck_housekeeping.

(** The follow-up check of a pending record with such a timestamp raises,
    and changes neither ledger nor messages. *)
Lemma check_followup_stuck clock n st r :
  tracked_comments st !! note_key n = Some r →
  responded r = false → followup_sent r = false →
  aware_or_malformed (rec_created_at r) →
  (∃ e, (check_followup clock n st).2 = inl e)
  ∧ tracked_comments (check_followup clock n st).1 = tracked_comments st
  ∧ slack (check_followup clock n st).1 = slack st.
Proof.
  intros Hk Hr Hf Haware. unfold check_followup. rewrite bind_run. simpl.
  rewrite Hk, Hr, Hf. simpl.
  unfold parse_timestamp. rewrite bind_run.
  destruct (Datetime.fromisoformat _) as [c|] eqn:Hc; simpl;
    [|split; [by eexists|done]].
  rewrite bind_run. simpl. unfold datetime_sub. rewrite bind_run.
  specialize (Haware c Hc).
  unfold Datetime.sub. simpl.
  destruct (Datetime.tzinfo c); [|done]. simpl.
  split; [by eexists|done].
Qed.

Lemma all_pending_aware_insert tc k r :
  all_pending_aware tc →
  responded r = false → followup_sent r = false →
  aware_or_malformed (rec_created_at r) →
  all_pending_aware (<[k:=r]> tc).
Proof.
  intros Htc Hr Hf Ha k' r' Hk'.
  destruct (decide (k = k')) as [->|Hne].
  - rewrite lookup_insert_eq in Hk'. by simplify_eq.
  - rewrite lookup_insert_ne in Hk' by done. by eapply Htc.
Qed.

Lemma tracked_note_stuck cfg clock p m ct d n st :
  aware_or_malformed (note_created_at n) →
  stuck st
    ((is_new_comment ← track_new p m n ct;
      needs_followup ← check_followup clock n;
      for_each (check_response cfg p m n) (notes d);;
      notify_mr_author cfg p m n is_new_comment needs_followup) st).1.
Proof.
  intros Hn Hst. rewrite bind_run, track_new_run.
  destruct (tracked_comments st !! note_key n) as [r|] eqn:Hk.
  - destruct (Hst _ _ Hk) as (Hr & Hf & Ha).
    destruct (check_followup_stuck clock n st r Hk Hr Hf Ha)
      as ([e He] & Htc & Hsl).
    rewrite bind_run.
    destruct (check_followup clock n st) as [st1 [e'|b]]; simpl in *; [|done].
    by rewrite Htc, Hsl.
  - set (st0 := set_tracked_comments _ st).
    assert (Hk' : tracked_comments st0 !! note_key n
                  = Some (new_record p m n ct)).
    { subst st0. simpl. by rewrite lookup_insert_eq. }
    destruct (check_followup_stuck clock n st0 _ Hk' eq_refl eq_refl Hn)
      as ([e He] & Htc & Hsl).
    rewrite bind_run.
    destruct (check_followup clock n st0) as [st1 [e'|b]]; simpl in *; [|done].
    rewrite Htc, Hsl. subst st0. simpl.
    split; [|done]. by apply all_pending_aware_insert.
Qed.

Lemma check_note_stuck cfg clock p m ct d n st :
  (system n = false → aware_or_malformed (note_created_at n)) →
  stuck st (check_note cfg clock p m ct d n st).1.
Proof.
  intros Hn. unfold check_note.
  destruct (system n) eqn:Hsys; [reflexivity|].
  specialize (Hn eq_refl). rewrite bind_run.
  destruct (bool_decide (username (note_author n) ≠ username (mr_author m)));
    simpl.
  - etrans; [apply (keeps_reviewers (R := stuck))|].
    destruct (should_track_user cfg _); simpl; [|reflexivity].
    by apply tracked_note_stuck.
  - destruct (should_track_user cfg _); simpl; [|reflexivity].
    by apply tracked_note_stuck.
Qed.

(** When every record of the ledger file is pending with a timestamp that
    parses (after [Z] is replaced) to an offset-aware [datetime] or not at
    all, and so is the timestamp of every note the polls return, then no
    message is ever posted and no record is ever marked: the follow-up check
    of every processed note ends in an exception, [now] being naive. *)
Theorem aware_timestamps_never_notify (cfg : config)
    (clock : nat → Datetime.datetime) (polls : list (list project_data))
    (file : gmap string comment_record) :
  all_pending_aware file →
  (∀ projects p md d n,
     projects ∈ polls → p ∈ projects → md ∈ get_merge_requests p →
     d ∈ discussions md → n ∈ notes d → system n = false →
     aware_or_malformed (note_created_at n)) →
  slack (run cfg clock polls (init file)).1 = []
  ∧ all_pending_aware (tracked_comments (run cfg clock polls (init file)).1).
Proof.
  intros Hfile Hnotes.
  assert (Hrun : stuck (init file) (run cfg clock polls (init file)).1).
  { apply (run_keeps cfg clock stuck). intros projects p md d n ct st ? ? ? ? ?.
    apply check_note_stuck. by eapply Hnotes. }
  destruct (Hrun Hfile) as [H Hs]. by split.
Qed.

(** The comment and its answer carry GitLab's [Z]: three polls, nothing
    posted. *)
Lemma aware_timestamps_never_notify_witness :
  slack (run Scenario.cfg_all Scenario.clock
           [Scenario.poll [Scenario.comment_utc];
            Scenario.poll [Scenario.comment_utc];
            Scenario.poll [Scenario.comment_utc]]
           (init ∅)).1 = [].
Proof.
  apply (aware_timestamps_never_notify Scenario.cfg_all Scenario.clock).
  - intros k r Hk. by rewrite lookup_empty in Hk.
  - intros projects p md d n Hpolls Hp Hmd Hd Hn _ c Hc.
    assert (n = Scenario.comment_utc) as ->.
    { repeat (apply elem_of_cons in Hpolls as [->|Hpolls]);
        try (by apply elem_of_nil in Hpolls);
        apply list_elem_of_singleton in Hp as ->;
        apply list_elem_of_singleton in Hmd as ->;
        apply list_elem_of_singleton in Hd as ->;
        by apply list_elem_of_singleton in Hn as ->. }
    vm_compute in Hc. by simplify_eq.
Defined.


(** ** A "new comment" message lost to an exception *)

(** The record of a comment is written before the timestamps of its thread
    are read.  When processing a tracked note that the ledger does not hold
    yet ends in an exception, the record is there all the same and no "new
    comment" message has been posted; whatever is polled afterwards, none
    about this comment is ever posted. *)
Theorem new_comment_lost_on_exception (cfg : config)
    (clock : nat → Datetime.datetime) (p : project) (m : merge_request)
    (ct : string) (d : discussion) (n : note) (st : tracker) (e : exn)
    (polls : list (list project_data)) :
  system n = false →
  should_track_user cfg (username (note_author n)) = true →
  tracked_comments st !! note_key n = None →
  (check_note cfg clock p m ct d n st).2 = inl e →
  let st1 := (check_note cfg clock p m ct d n st).1 in
  is_Some (tracked_comments st1 !! note_key n)
  ∧ posts_of NewComment (note_key n) (slack (run cfg clock polls st1).1)
    = posts_of NewComment (note_key n) (slack st).
Proof.
  intros Hsys Htrack Hk He st1.
  pose proof (check_note_effect cfg clock p m ct d n st) as Heff.
  fold st1 in Heff. rewrite He in Heff.
  destruct Heff as (_ & _ & _ & _ & Heff).
  rewrite Hsys, Htrack in Heff. simpl in Heff.
  destruct Heff as (r' & rposts & cposts & Hr' & Hsl & _ & _ & Hresp & ->).
  assert (Hrposts : posts_of NewComment (note_key n) rposts = 0%nat).
  { destruct Hresp as [(_ & _ & -> & _)|(_ & pre & x & post & _ & _ & _ & _ & _ & ->)];
      [done|].
    destruct (posts_of_response_posts cfg NewComment (note_key n) p m n x
                (reviewers st1)) as [Hle Hone].
    destruct (decide (posts_of NewComment (note_key n)
                        (response_posts cfg p m n x (reviewers st1)) = 1%nat))
      as [H1|H1]; [|lia].
    by destruct (Hone H1). }
  split; [by eexists|].
  destruct (run_once_each cfg clock polls st1) as [_ (new & Hnew & Hposts)].
  rewrite Hnew, Hsl, !posts_of_app, Hrposts, posts_of_nil.
  destruct (Hposts NewComment (note_key n)) as [Hle Hone].
  destruct (decide (posts_of NewComment (note_key n) new = 1%nat))
    as [H1|H1]; [|lia].
  destruct (Hone H1) as [Hnot _]. destruct Hnot. simpl. by eexists.
Qed.

(** A note with an unreadable timestamp follows the comment in its thread:
    processing the comment ends in [ValueError]; once the note is gone, the
    comment is polled again and is not announced. *)
Lemma new_comment_lost_on_exception_witness :
  posts_of NewComment "456793"
    (slack (run Scenario.cfg_all Scenario.clock
              [Scenario.poll [Scenario.other_comment];
               Scenario.poll [Scenario.other_comment]]
              (check_note Scenario.cfg_all Scenario.clock Scenario.project0
                 Scenario.mr0 Scenario.now_text
                 (Scenario.thread [Scenario.other_comment; Scenario.broken_note])
                 Scenario.other_comment (init ∅)).1).1) = 0%nat.
Proof.
  exact (proj2 (new_comment_lost_on_exception Scenario.cfg_all Scenario.clock
                  Scenario.project0 Scenario.mr0 Scenario.now_text
                  (Scenario.thread [Scenario.other_comment; Scenario.broken_note])
                  Scenario.other_comment (init ∅) ValueError
                  [Scenario.poll [Scenario.other_comment];
                   Scenario.poll [Scenario.other_comment]]
                  eq_refl eq_refl eq_refl eq_refl)).
Defined.

(** The same comment met first without the unreadable note is announced. *)
Example comment_announced_without_exception :
  Scenario.kinds
    (run Scenario.cfg_all Scenario.clock
       [Scenario.poll [Scenario.other_comment];
        Scenario.poll [Scenario.other_comment]] (init ∅))
  = [(NewComment, "U1")].
Proof. vm_compute. reflexivity. Qed.

(** ** Listing the projects *)

Lemma projects_of_pages_S pages first count :
  projects_of_pages pages first (S count)
  = ((keep_project <$> json (pages first))
     ++ projects_of_pages pages (S first) count)%list.
Proof. reflexivity. Qed.

Lemma get_projects_from_full pages fuel page projects :
  full_page (pages page) →
  get_projects_from pages (S fuel) page projects
  = get_projects_from pages fuel (S page)
      (projects ++ (keep_project <$> json (pages page)))%list.
Proof.
  intros [Hs Hj]. simpl. rewrite Hs. simpl.
  by destruct (json (pages page)).
Qed.

Lemma get_projects_from_stop pages fuel page projects :
  ¬ full_page (pages page) →
  get_projects_from pages (S fuel) page projects = Some projects.
Proof.
  intros Hnot. simpl.
  destruct (Z.eqb_spec (status_code (pages page)) 200) as [Hs|Hs]; simpl;
    [|done].
  destruct (json (pages page)) eqn:Hj; [done|].
  destruct Hnot. split; [done|]. by rewrite Hj.
Qed.

Lemma get_projects_from_collects pages count :
  ∀ fuel page projects,
    (∀ i, (page ≤ i < page + count)%nat → full_page (pages i)) →
    ¬ full_page (pages (page + count)%nat) →
    (count < fuel)%nat →
    get_projects_from pages fuel page projects
    = Some (projects ++ projects_of_pages pages page count)%list.
Proof.
  induction count as [|count IH]; intros fuel page projects Hfull Hstop Hfuel.
  - destruct fuel as [|fuel]; [lia|].
    rewrite Nat.add_0_r in Hstop. rewrite get_projects_from_stop by done.
    unfold projects_of_pages. simpl. by rewrite app_nil_r.
  - destruct fuel as [|fuel]; [lia|].
    rewrite get_projects_from_full by (apply Hfull; lia).
    rewrite IH; [|intros i Hi; apply Hfull; lia| |lia].
    + by rewrite projects_of_pages_S, app_assoc.
    + by replace (S page + count)%nat with (page + S count)%nat by lia.
Qed.

(** Without configured projects, [get_projects] asks for the pages 1, 2, ...
    and returns the projects of the pages before the first one that fails
    or is empty, in order; with [n] such pages, [n + 1] requests are made. *)
Theorem get_projects_collects (pages : nat → response (list listed_project))
    (n fuel : nat) :
  (∀ i, (1 ≤ i ≤ n)%nat → full_page (pages i)) →
  ¬ full_page (pages (S n)) →
  (n < fuel)%nat →
  get_projects [] pages fuel = Some (projects_of_pages pages 1 n).
Proof.
  intros Hfull Hstop Hfuel. unfold get_projects.
  rewrite (get_projects_from_collects pages n); [done| |done|done].
  intros i Hi. apply Hfull. lia.
Qed.

Lemma get_projects_collects_witness :
  get_projects []
    (λ i, {| status_code := if (i <=? 2)%nat then 200 else 500;
             json := [ {| listed_id := Z.of_nat i;
                          listed_path_with_namespace := "group/project-name";
                          listed_name := "project-name" |} ] |}) 3
  = Some [ {| project_id := 1; path_with_namespace := "group/project-name" |};
           {| project_id := 2; path_with_namespace := "group/project-name" |} ].
Proof.
  set (pages := λ i : nat, _).
  change (get_projects [] pages 3 = Some (projects_of_pages pages 1 2)).
  apply get_projects_collects.
  - intros i Hi. split; simpl; [|done].
    destruct (Nat.leb_spec i 2); [done|lia].
  - intros [Hs _]. simpl in Hs. done.
  - lia.
Defined.

Lemma get_projects_from_never_ends pages fuel :
  ∀ page projects,
    (∀ i, (page ≤ i)%nat → full_page (pages i)) →
    get_projects_from pages fuel page projects = None.
Proof.
  induction fuel as [|fuel IH]; intros page projects Hfull; [done|].
  rewrite get_projects_from_full by (apply Hfull; lia).
  apply IH. intros i Hi. apply Hfull. lia.
Qed.

(** The loop of [get_projects] ends only at a page that fails or is empty:
    against a server that answers every page with projects no number of
    requests is enough, unless the projects are configured, in which case no
    request is made. *)
Theorem get_projects_needs_last_page (tracked_projects : list project)
    (pages : nat → response (list listed_project)) (fuel : nat) :
  (∀ i, (1 ≤ i)%nat → full_page (pages i)) →
  get_projects tracked_projects pages fuel
  = match tracked_projects with
    | [] => None
    | _ => Some tracked_projects
    end.
Proof.
  intros Hfull. unfold get_projects.
  destruct tracked_projects; [|done].
  by apply get_projects_from_never_ends.
Qed.

Lemma get_projects_needs_last_page_witness :
  get_projects []
    (λ _, {| status_code := 200;
             json := [ {| listed_id := 12345;
                          listed_path_with_namespace := "group/project-name";
                          listed_name := "project-name" |} ] |}) 1000
  = None.
Proof.
  apply (get_projects_needs_last_page []). intros i _. by split.
Defined.


(** ** Messages and records *)

Lemma posts_of_elem_of post l :
  post ∈ l → (1 ≤ posts_of (kind post) (about post) l)%nat.
Proof.
  intros Hin. unfold posts_of.
  assert (Hf : post ∈ filter (λ q, kind q = kind post ∧ about q = about post) l).
  { apply list_elem_of_filter. by split. }
  destruct (filter _ l); [by apply elem_of_nil in Hf|simpl; lia].
Qed.

(** From [__init__] on, every message posted is backed by the ledger the run
    ends with: the comment it is about has a record; the record of a
    follow-up says [followup_sent]; the record of an "author responded"
    message says [responded]. *)
Theorem messages_backed_by_ledger (cfg : config)
    (clock : nat → Datetime.datetime) (polls : list (list project_data))
    (file : gmap string comment_record) :
  Forall (λ post,
            occasion_past (kind post)
              (tracked_comments (run cfg clock polls (init file)).1)
              (about post))
    (slack (run cfg clock polls (init file)).1).
Proof.
  destruct (run_once_each cfg clock polls (init file))
    as [_ (new & Hsl & Hnew)].
  rewrite Hsl. simpl. apply Forall_forall. intros post Hin.
  destruct (Hnew (kind post) (about post)) as [Hle Hone].
  pose proof (posts_of_elem_of post new Hin).
  apply Hone. lia.
Qed.

(** ** Where records come from *)

Lemma same_creation_trans r1 r2 r3 :
  same_creation r1 r2 → same_creation r2 r3 → same_creation r1 r3.
Proof.
  intros (? & ? & ? & ? & ?) (? & ? & ? & ? & ?). repeat split; congruence.
Qed.

Section Creating.

Context (Q : string → comment_record → Prop).
Hypothesis Q_creation : ∀ k r r', same_creation r r' → Q k r → Q k r'.

Lemma creating_preorder : PreOrder (creating Q).
Proof.
  split.
  - intros st. split; [reflexivity|]. intros k r' Hnone Hsome. congruence.
  - intros st1 st2 st3 [He12 Hn12] [He23 Hn23]. split; [by etrans|].
    intros k r3 Hnone Hsome.
    destruct (tracked_comments st2 !! k) as [r2|] eqn:Hk2.
    + destruct He23 as (Hrec & _).
      destruct (Hrec k r2 Hk2) as (r3' & Hk3 & Hcr & _).
      assert (r3' = r3) as -> by congruence.
      eapply Q_creation; [exact Hcr|]. by eapply Hn12.
    + by eapply Hn23.
Qed.

Lemma creating_housekeeping : Housekeeping (creating Q).
Proof.
  split.
  - intros f st. split; [apply keeps_reviewers|]. simpl. congruence.
  - intros n st. split; [apply keeps_clock|]. simpl. congruence.
  - intros st. split; [apply keeps_save|]. simpl. congruence.
Qed.

End Creating.

Lemma describes_polled_note_creation cfg polls k r r' :
  same_creation r r' →
  describes_polled_note cfg polls k r → describes_polled_note cfg polls k r'.
Proof.
  intros (Hp & Hm & Ha & Hc & _)
    (projects & p & md & d & n & ? & ? & ? & ? & ? & ? & ? & ? & ? & ? & ? & ? & ?).
  exists projects, p, md, d, n. split_and!; try done; congruence.
Qed.

(** A record created while processing a note is the new record of that
    note, which is not a system note and whose author is tracked. *)
Lemma check_note_creates cfg clock p m ct d n st k r' :
  tracked_comments st !! k = None →
  tracked_comments (check_note cfg clock p m ct d n st).1 !! k = Some r' →
  k = note_key n ∧ system n = false
  ∧ should_track_user cfg (username (note_author n)) = true
  ∧ same_creation (new_record p m n ct) r'.
Proof.
  pose proof (check_note_effect cfg clock p m ct d n st) as Heff.
  destruct (check_note cfg clock p m ct d n st) as [st' res]. simpl in *.
  destruct Heff as (Hrv & Hdb & Hck & Hoth & Hkey).
  intros Hnone Hsome.
  destruct (decide (k = note_key n)) as [->|Hne].
  2:{ rewrite Hoth in Hsome by done. congruence. }
  destruct (system n) eqn:Hsys; simpl in Hkey.
  { destruct Hkey as [Htc _]. congruence. }
  destruct (should_track_user cfg _) eqn:Htrack; simpl in Hkey.
  2:{ destruct Hkey as [Htc _]. congruence. }
  destruct Hkey as (r'' & rposts & cposts & Hr' & _ & Hcr & _).
  rewrite Hnone in Hcr. simpl in Hcr.
  assert (r'' = r') as -> by congruence. done.
Qed.

(** A record that a run adds to the ledger describes a note the polls
    returned, under that note's key: a note that is not a system note, by an
    author who passes the user filter, in a thread of a merge request that is
    open; it carries the project, the merge request, the author and the
    timestamp of that note. *)
Theorem records_describe_polled_notes (cfg : config)
    (clock : nat → Datetime.datetime) (polls : list (list project_data))
    (st : tracker) (k : string) (r : comment_record) :
  tracked_comments st !! k = None →
  tracked_comments (run cfg clock polls st).1 !! k = Some r →
  describes_polled_note cfg polls k r.
Proof.
  intros Hnone Hsome.
  pose proof (creating_preorder (describes_polled_note cfg polls)
                (describes_polled_note_creation cfg polls)) as Hpre.
  pose proof (creating_housekeeping (describes_polled_note cfg polls)) as Hhk.
  assert (Hrun : creating (describes_polled_note cfg polls) st
                   (run cfg clock polls st).1).
  { apply (run_keeps cfg clock (creating (describes_polled_note cfg polls))).
    intros projects p md d n ct st0 Hprojects Hp Hmd Hd Hn.
    split; [apply check_note_evolves|].
    intros k' r' Hnone' Hsome'.
    destruct (check_note_creates cfg clock _ _ _ _ _ _ _ _ Hnone' Hsome')
      as (-> & Hsys & Htrack & Hp' & Hm' & Ha' & Hc' & _).
    apply list_elem_of_filter in Hmd as [Hopen Hmd].
    exists projects, p, md, d, n. by split_and!. }
  destruct Hrun as [_ Hnew]. by eapply Hnew.
Qed.

Lemma records_describe_polled_notes_witness :
  describes_polled_note Scenario.cfg_reviewer
    [Scenario.poll [Scenario.comment; Scenario.answer]] "456789"
    {| rec_project_id := 12345; rec_mr_iid := 123;
       rec_author := "reviewer1";
       rec_created_at := "2023-04-01T14:30:45";
       rec_notified_at := Scenario.now_text;
       responded := true; followup_sent := true;
       responder := Some "author1" |}.
Proof.
  apply (records_describe_polled_notes Scenario.cfg_reviewer Scenario.clock
           [Scenario.poll [Scenario.comment; Scenario.answer]] (init ∅)).
  - reflexivity.
  - vm_compute. reflexivity.
Defined.
